(** * WeWear relay server (server.js): a shallow embedding

    The file follows server.js handler by handler.

    - [Sse]       the two Server-Sent-Events pollers, [GET /events/:taskId]
                  (Meshy) and [GET /fashn/events/:id] (FASHN);
    - [Js]        the JavaScript values and conversions the submission
                  handlers rely on ([Number] with its rounding to binary64,
                  truthiness, [Math.min], [Math.max]);
    - [Submit]    [POST /image-to-3d] and [POST /fashn/tryon];
    - [Download]  [GET /download];
    - [Uri]       [encodeURIComponent] and [decodeURIComponent];
    - [Status]    [GET /image-to-3d/:taskId] and [GET /fashn/tryon/:id];
    - [Startup]   the environment checks at the top of the file and
                  [GET /health].

    The first half of the file holds the definitions, module by module; the
    second half, from [SseFacts] on, the theorems about them. *)

From Stdlib Require Import ZArith QArith Lia Ascii String.
From stdpp Require Import gmap strings list fin_maps.

Local Open Scope string_scope.
Local Open Scope list_scope.
Local Open Scope Z_scope.

(** The one-character string [U+0022]. *)
Definition dquote : string := String (Ascii.ascii_of_nat 34) EmptyString.

(** ** The SSE pollers *)

Module Sse.

(** Which of the two handlers is running: [/events/:taskId] polls Meshy,
    [/fashn/events/:id] polls FASHN. *)
Inductive provider := Meshy | Fashn.

(** The parsed body [data] of a status response.  Only two things are ever
    observed of it: the property [data.status] and [JSON.stringify(data)].
    Reading a property of [null] throws a [TypeError], so [null] is kept
    apart; [status] is [Some s] when [data.status] is the string [s] and
    [None] when the property is missing or is not a string. *)
Inductive status_data :=
| JsonNull
| JsonValue (status : option string) (text : string).

(** The envelope whose JSON text is the object with the single property
    [status]. *)
Definition status_only (st : string) : status_data :=
  JsonValue (Some st)
    ("{" +:+ dquote +:+ "status" +:+ dquote +:+ ":" +:+ dquote +:+ st +:+ dquote +:+ "}").

(** What [axios.get] settles with: the promise resolves with [data] or rejects
    with an error whose [message] is kept. *)
Inductive fetch_result :=
| Resolved (data : status_data)
| Rejected (message : string).

(** The three frames the handlers write.
    - [EvMessage d]   is [data: ${JSON.stringify(d)}\n\n];
    - [EvFinished d]  is [event: finished\ndata: ${JSON.stringify(d)}\n\n];
    - [EvError m]     is [event: error\ndata: ${JSON.stringify({message: m})}\n\n]. *)
Inductive sse_event :=
| EvMessage (d : status_data)
| EvFinished (d : status_data)
| EvError (message : string).

Definition event_name (e : sse_event) : option string :=
  match e with
  | EvMessage _ => None
  | EvFinished _ => Some "finished"
  | EvError _ => Some "error"
  end.

Definition is_finished (e : sse_event) : bool :=
  match e with EvFinished _ => true | _ => false end.

(** What happens on the response, in order: the calls the handler makes
    ([res.write], [res.end]) and the one thing the transport does to it (the
    client goes away, which is when [req] emits ['close']). *)
Inductive chan_entry :=
| Wrote (e : sse_event)
| Ended
| Disconnected.

(** [let stopped], [const interval] and the response of one request.  The timer
    is kept as the time of its next firing, [None] once [clearInterval] ran.
    [fetches] lists the start time of every [axios.get] issued so far, oldest
    first; a fetch is named by its position in that list, and [in_flight]
    holds the names of those whose promise is not settled yet. *)
Record session := mkSession {
  stopped : bool;
  interval : option Z;
  in_flight : list nat;
  fetches : list Z;
  wire : list chan_entry
}.

Definition intervalMs : Z := 2000.

(** [data.status && [...].includes(data.status)], resp.
    [data.status && (data.status === "completed" || data.status === "failed")]. *)
Definition terminal_statuses (p : provider) : list string :=
  match p with
  | Meshy => ["SUCCEEDED"; "FAILED"; "CANCELED"]
  | Fashn => ["completed"; "failed"]
  end.

Definition truthy_string (s : string) : bool :=
  match s with EmptyString => false | String _ _ => true end.

Definition is_terminal (p : provider) (st : option string) : bool :=
  match st with
  | None => false
  | Some s => truthy_string s && bool_decide (s ∈ terminal_statuses p)
  end.

Definition terminal (p : provider) (d : status_data) : bool :=
  match d with
  | JsonNull => false
  | JsonValue st _ => is_terminal p st
  end.

(** [err.message] of the [TypeError] thrown by [data.status] when [data] is
    [null] (V8's wording). *)
Definition null_status_message : string :=
  "Cannot read properties of null (reading 'status')".

(** *** The statements of the handlers, one by one *)

Definition clearInterval (s : session) : session :=
  mkSession (stopped s) None (in_flight s) (fetches s) (wire s).

Definition set_stopped (s : session) : session :=
  mkSession true (interval s) (in_flight s) (fetches s) (wire s).

Definition res_write (e : sse_event) (s : session) : session :=
  mkSession (stopped s) (interval s) (in_flight s) (fetches s) (wire s ++ [Wrote e]).

Definition res_end (s : session) : session :=
  mkSession (stopped s) (interval s) (in_flight s) (fetches s) (wire s ++ [Ended]).

Definition axios_get (now : Z) (s : session) : session :=
  mkSession (stopped s) (interval s) (in_flight s ++ [length (fetches s)])
            (fetches s ++ [now]) (wire s).

Definition settled (id : nat) (s : session) : session :=
  mkSession (stopped s) (interval s) (List.remove Nat.eq_dec id (in_flight s))
            (fetches s) (wire s).

Definition rearm (due : Z) (s : session) : session :=
  mkSession (stopped s) (Some due) (in_flight s) (fetches s) (wire s).

Definition req_closed (s : session) : session :=
  mkSession (stopped s) (interval s) (in_flight s) (fetches s) (wire s ++ [Disconnected]).

(** The body of the route handler: headers, [let stopped = false],
    [setInterval(..., 2000)] and [req.on("close", ...)].  Nothing is fetched
    here; the timer is armed for 2000 ms later. *)
Definition subscribe (now : Z) : session :=
  mkSession false (Some (now + intervalMs)) [] [] [].

(** The branch taken on a terminal status (server.js 227-232 and 169-174). *)
Definition on_terminal (p : provider) (d : status_data) (s : session) : session :=
  match p with
  | Meshy => res_end (res_write (EvFinished d) (set_stopped (clearInterval s)))
  | Fashn => res_end (set_stopped (clearInterval (res_write (EvFinished d) s)))
  end.

(** The [catch] block (server.js 233-238 and 175-180). *)
Definition on_catch (p : provider) (message : string) (s : session) : session :=
  match p with
  | Meshy => res_end (res_write (EvError message) (set_stopped (clearInterval s)))
  | Fashn => res_end (set_stopped (clearInterval (res_write (EvError message) s)))
  end.

(** The part of the interval callback after [await]: it runs when the promise
    of fetch [id] settles.  [stopped] is not read again here. *)
Definition on_settle (p : provider) (id : nat) (r : fetch_result) (s : session) : session :=
  if bool_decide (id ∈ in_flight s) then
    let s := settled id s in
    match r with
    | Rejected m => on_catch p m s
    | Resolved d =>
        let s := res_write (EvMessage d) s in
        match d with
        | JsonNull => on_catch p null_status_message s
        | JsonValue st _ => if is_terminal p st then on_terminal p d s else s
        end
    end
  else s.

(** The part of the interval callback before [await], run when the timer
    fires: [if (stopped) return;] and then the request is sent.  The timer
    stays armed, one period later.  A cleared timer never fires. *)
Definition on_tick (s : session) : session :=
  match interval s with
  | None => s
  | Some due =>
      let s := rearm (due + intervalMs) s in
      if stopped s then s else axios_get due s
  end.

(** [req.on("close", () => { stopped = true; clearInterval(interval); })]. *)
Definition on_close (s : session) : session :=
  clearInterval (set_stopped (req_closed s)).

(** What the event loop can deliver to a session. *)
Inductive input :=
| Tick
| Settle (id : nat) (r : fetch_result)
| Close.

Definition step (p : provider) (s : session) (i : input) : session :=
  match i with
  | Tick => on_tick s
  | Settle id r => on_settle p id r s
  | Close => on_close s
  end.

Definition run (p : provider) (s : session) (tr : list input) : session :=
  fold_left (step p) tr s.

(** *** Views of the response log *)

(** Whether [res.end()] has been called. *)
Definition ended (w : list chan_entry) : bool :=
  existsb (fun c => match c with Ended => true | _ => false end) w.

(** The calls the handler made on [res], whatever became of them. *)
Fixpoint calls (w : list chan_entry) : list chan_entry :=
  match w with
  | [] => []
  | Disconnected :: w' => calls w'
  | c :: w' => c :: calls w'
  end.

(** The frames handed to [res.write], in order. *)
Fixpoint written (w : list chan_entry) : list sse_event :=
  match w with
  | [] => []
  | Wrote e :: w' => e :: written w'
  | _ :: w' => written w'
  end.

Definition count_finished (l : list sse_event) : nat :=
  length (List.filter is_finished l).

Definition is_error (e : sse_event) : bool :=
  match e with EvError _ => true | _ => false end.

Definition count_errors (l : list sse_event) : nat :=
  length (List.filter is_error l).

Definition pending (id : nat) (s : session) : bool :=
  bool_decide (id ∈ in_flight s).

(** A trace in which every fetch is settled before the timer fires again. *)
Fixpoint prompt (p : provider) (s : session) (tr : list input) : bool :=
  match tr with
  | [] => true
  | i :: tr' =>
      match i with
      | Tick => match in_flight s with [] => true | _ => false end
      | _ => true
      end && prompt p (step p s i) tr'
  end.

(** The times of [n] firings of a 2000 ms timer, the first one at [first]. *)
Fixpoint schedule (first : Z) (n : nat) : list Z :=
  match n with
  | O => []
  | S n' => first :: schedule (first + intervalMs) n'
  end.

Definition ticks (tr : list input) : nat :=
  length (List.filter (fun i => match i with Tick => true | _ => false end) tr).

(** *** Invariants of a running session *)

(** The timer and the fetch log of a session: while it is not stopped the
    timer has fired [n] times, each firing sent one request, and the
    timer is armed for the next period; once stopped the timer is cleared. *)
Definition on_schedule (t0 : Z) (n : nat) (s : session) : Prop :=
  fetches s = schedule (t0 + intervalMs) (length (fetches s)) /\
  if stopped s
  then interval s = None /\ (length (fetches s) <= n)%nat
  else interval s = Some (t0 + intervalMs * (Z.of_nat n + 1)) /\ length (fetches s) = n.

(** [res.write] of a [finished] frame is always followed by [res.end()]. *)
Definition finished_then_ended (w : list chan_entry) : Prop :=
  forall d, In (Wrote (EvFinished d)) w -> In Ended w.

(** [res.write] of an [error] frame is always followed by [res.end()]. *)
Definition error_then_ended (w : list chan_entry) : Prop :=
  forall m, In (Wrote (EvError m)) w -> In Ended w.

(** *** The properties under study, as predicates on sessions *)

(** A terminal status arriving for fetch [id] in state [s]: the data frame and
    one [finished] frame with the same envelope are written, the response is
    ended, and no frame is written ever after. *)
Definition finishes_once (p : provider) (s : session) (id : nat) (d : status_data) : Prop :=
  let s' := step p s (Settle id (Resolved d)) in
  wire s' = wire s ++ [Wrote (EvMessage d); Wrote (EvFinished d); Ended] /\
  forall tr, written (wire (run p s' tr)) = written (wire s').

(** A failure of fetch [id] in state [s]: one [error] frame with the message
    is written, the response is ended, and no frame is written ever after. *)
Definition fails_once (p : provider) (s : session) (id : nat) (m : string) : Prop :=
  let s' := step p s (Settle id (Rejected m)) in
  wire s' = wire s ++ [Wrote (EvError m); Ended] /\
  forall tr, written (wire (run p s' tr)) = written (wire s').

(** After the client went away in state [s]: no fetch is started and no frame
    is written, whatever happens next. *)
Definition silent_after_close (p : provider) (s : session) : Prop :=
  let s' := step p s Close in
  forall tr,
    fetches (run p s' tr) = fetches s' /\
    written (wire (run p s' tr)) = written (wire s').

(** At most one fetch is awaiting its response. *)
Definition single_flight (s : session) : Prop :=
  (length (in_flight s) <= 1)%nat.

(** Polling that starts at once: the fetches of the session subscribed at
    [t0] were sent at [t0], [t0 + 2000], [t0 + 4000], ... *)
Definition polls_from_subscription (p : provider) (t0 : Z) (tr : list input) : Prop :=
  let s := run p (subscribe t0) tr in
  fetches s = schedule t0 (length (fetches s)).

End Sse.

(** ** JavaScript values and conversions used by the handlers *)

Module Js.

(** A JavaScript number is a binary64 value: [NaN], the two infinities, the
    negative zero, or a finite value kept as the rational it denotes (so
    [Fin 0] is the positive zero).  Numbers that come out of [StringToNumber]
    are rounded to binary64 there; [Math.min] and [Math.max] select one of
    their operands, which is exact. *)
Inductive number :=
| NaN
| NegInf
| NegZero
| Fin (q : Q)
| PosInf.

(** A value found in a request body or stored in a payload.  An object is kept
    as its own properties together with whether it inherits from
    [Object.prototype] (an object of a JSON body does; the nested objects that
    multer builds for bracketed field names are made with
    [Object.create(null)] and do not). *)
#[warnings="-register-all"]
Inductive value :=
| VUndefined
| VNull
| VBool (b : bool)
| VNum (x : number)
| VStr (s : string)
| VArray (items : list value)
| VObject (inherits : bool) (props : gmap string value).

(** How an evaluation ends: with a value, or with a thrown error, of which the
    [message] is kept. *)
Inductive completion (A : Type) :=
| Normal (a : A)
| Throw (message : string).

Arguments Normal {A} a.
Arguments Throw {A} message.

#[global] Instance completion_ret : MRet completion := fun A a => Normal a.

#[global] Instance completion_bind : MBind completion := fun A B f c =>
  match c with
  | Normal a => f a
  | Throw m => Throw m
  end.

(** *** Rounding to binary64 *)

(** [floor (log2 (n / d))] for positive [n] and [d]. *)
Definition floor_log2 (n d : Z) : Z :=
  let e := Z.log2 n - Z.log2 d in
  if (if 0 <=? e then n <? d * 2 ^ e else n * 2 ^ (- e) <? d) then e - 1 else e.

(** The integer nearest to [n / d], the even one of the two when [n / d] lies
    halfway between them. *)
Definition round_half_even (n d : Z) : Z :=
  let a := n / d in
  match 2 * (n mod d) ?= d with
  | Lt => a
  | Gt => a + 1
  | Eq => if Z.even a then a else a + 1
  end.

(** The binary64 value nearest to the positive rational [n / d]
    (roundTiesToEven): 53 significant bits for exponents from -1022 to 1023,
    multiples of [2^-1074] below, and [None], for infinity, when the rounded
    value reaches [2^1024]. *)
Definition nearest64 (n d : Z) : option Q :=
  let t := Z.max (floor_log2 n d) (- 1022) - 52 in
  if 0 <=? t then
    let m := round_half_even n (d * 2 ^ t) in
    if 2 ^ 1024 <=? m * 2 ^ t then None else Some (inject_Z (m * 2 ^ t))
  else
    let m := round_half_even (n * 2 ^ (- t)) d in
    Some (Qred (m # Z.to_pos (2 ^ (- t)))).

(** The Number value for the mathematical value [q >= 0] of a literal, under
    the sign of the literal. *)
Definition round64 (neg : bool) (q : Q) : number :=
  let zero := if neg then NegZero else Fin 0 in
  if Qnum q =? 0 then zero
  else
    match nearest64 (Qnum q) (Zpos (Qden q)) with
    | None => if neg then NegInf else PosInf
    | Some r => if Qnum r =? 0 then zero else Fin (if neg then Qopp r else r)
    end.

(** *** [StringToNumber] *)

Definition code (c : ascii) : N := N_of_ascii c.

(** [StrWhiteSpaceChar], by the length of its UTF-8 encoding.  One byte: TAB,
    LF, VT, FF, CR and the space. *)
Definition space1 (c : ascii) : bool :=
  ((9 <=? code c) && (code c <=? 13) || (code c =? 32))%N.

(** Two bytes: U+00A0. *)
Definition space2 (c1 c2 : ascii) : bool :=
  ((code c1 =? 194) && (code c2 =? 160))%N.

(** Three bytes: U+1680, U+2000 to U+200A, U+2028, U+2029, U+202F, U+205F,
    U+3000 and U+FEFF. *)
Definition space3 (c1 c2 c3 : ascii) : bool :=
  ((code c1 =? 225) && (code c2 =? 154) && (code c3 =? 128)
   || (code c1 =? 226) && (code c2 =? 128)
      && ((128 <=? code c3) && (code c3 <=? 138)
          || (code c3 =? 168) || (code c3 =? 169) || (code c3 =? 175))
   || (code c1 =? 226) && (code c2 =? 129) && (code c3 =? 159)
   || (code c1 =? 227) && (code c2 =? 128) && (code c3 =? 128)
   || (code c1 =? 239) && (code c2 =? 187) && (code c3 =? 191))%N.

(** The list without the white space it starts with; with [back] the list is
    read from its end, so that the bytes of a character come last byte
    first. *)
Fixpoint drop_space (back : bool) (l : list ascii) : list ascii :=
  match l with
  | [] => []
  | c1 :: l1 =>
      if space1 c1 then drop_space back l1
      else
        match l1 with
        | [] => l
        | c2 :: l2 =>
            if (if back then space2 c2 c1 else space2 c1 c2) then drop_space back l2
            else
              match l2 with
              | [] => l
              | c3 :: l3 =>
                  if (if back then space3 c3 c2 c1 else space3 c1 c2 c3)
                  then drop_space back l3
                  else l
              end
        end
  end.

Definition trim (l : list ascii) : list ascii :=
  rev (drop_space true (rev (drop_space false l))).

Definition digit (radix : Z) (c : ascii) : option Z :=
  let n := Z.of_N (N_of_ascii c) in
  let v := if (48 <=? n) && (n <=? 57) then Some (n - 48)
           else if (97 <=? n) && (n <=? 102) then Some (n - 87)
           else if (65 <=? n) && (n <=? 70) then Some (n - 55)
           else None in
  match v with
  | Some d => if d <? radix then Some d else None
  | None => None
  end.

(** The longest prefix of digits: its value on top of [acc], how many digits
    were read on top of [n], and what follows. *)
Fixpoint digits (radix : Z) (l : list ascii) (acc : Z) (n : nat) : Z * nat * list ascii :=
  match l with
  | c :: l' =>
      match digit radix c with
      | Some d => digits radix l' (acc * radix + d) (S n)
      | None => (acc, n, l)
      end
  | [] => (acc, n, [])
  end.

Definition whole (radix : Z) (l : list ascii) : option Z :=
  match digits radix l 0 0 with
  | (v, S _, []) => Some v
  | _ => None
  end.

Definition radix_of (c : ascii) : option Z :=
  if (c =? "x")%char || (c =? "X")%char then Some 16
  else if (c =? "o")%char || (c =? "O")%char then Some 8
  else if (c =? "b")%char || (c =? "B")%char then Some 2
  else None.

Definition signed (l : list ascii) : bool * list ascii :=
  match l with
  | "-"%char :: r => (true, r)
  | "+"%char :: r => (false, r)
  | _ => (false, l)
  end.

(** [m * 10^k]. *)
Definition scale (m k : Z) : Q :=
  if 0 <=? k then inject_Z (m * 10 ^ k) else Qred (m # Z.to_pos (10 ^ (- k))).

Definition exponent (l : list ascii) : option Z :=
  let '(neg, r) := signed l in
  match whole 10 r with
  | Some v => Some (if neg then - v else v)
  | None => None
  end.

(** The mathematical value of a [StrUnsignedDecimalLiteral] other than
    [Infinity]: digits, an optional fraction, an optional exponent, and at
    least one digit before the exponent. *)
Definition decimal (l : list ascii) : option Q :=
  let '(ip, ni, r1) := digits 10 l 0 0 in
  let '(m, nf, r2) :=
    match r1 with
    | "."%char :: r => digits 10 r ip 0
    | _ => (ip, O, r1)
    end in
  if (ni + nf =? 0)%nat then None
  else
    match r2 with
    | [] => Some (scale m (- Z.of_nat nf))
    | c :: r3 =>
        if (c =? "e")%char || (c =? "E")%char then
          match exponent r3 with
          | Some e => Some (scale m (e - Z.of_nat nf))
          | None => None
          end
        else None
    end.

Definition StringToNumber (s : string) : number :=
  match trim (list_ascii_of_string s) with
  | [] => Fin 0
  | l =>
      match l with
      | "0"%char :: c :: r =>
          match radix_of c with
          | Some radix =>
              match whole radix r with
              | Some v => round64 false (inject_Z v)
              | None => NaN
              end
          | None =>
              match decimal l with Some q => round64 false q | None => NaN end
          end
      | _ =>
          let '(neg, body) := signed l in
          if bool_decide (body = list_ascii_of_string "Infinity")
          then (if neg then NegInf else PosInf)
          else
            match decimal body with
            | Some q => round64 neg q
            | None => NaN
            end
      end
  end.

(** *** Conversions and operators *)

(** [err.message] of the [TypeError] of [ToPrimitive] (V8's wording). *)
Definition primitive_error : string := "Cannot convert object to primitive value".

(** Whether converting the value to a primitive throws.  None of the objects
    of a body has a callable property of its own, so an object is converted by
    [Object.prototype.toString], which it must inherit and not shadow; an
    array is converted by [join], which converts its elements. *)
Fixpoint unconvertible (v : value) : bool :=
  match v with
  | VObject inherits props =>
      negb inherits || match props !! "toString" with Some _ => true | None => false end
  | VArray items => existsb unconvertible items
  | _ => false
  end.

(** [ToNumber] of a value that converts.  An object gives ["[object Object]"],
    which is no number.  An array gives its elements joined with [","]: the
    empty text for no element, a text with a comma, which is no number, for
    two elements or more, and the text of the element for one, where
    [undefined] and [null] give the empty text and a number gives a decimal
    that reads back as that number. *)
Fixpoint ToNumber (v : value) : number :=
  match v with
  | VUndefined => NaN
  | VNull => Fin 0
  | VBool b => if b then Fin 1 else Fin 0
  | VNum x => x
  | VStr s => StringToNumber s
  | VObject _ _ => NaN
  | VArray [] => Fin 0
  | VArray [e] =>
      match e with
      | VUndefined | VNull => Fin 0
      | VBool _ => NaN
      | VNum NegZero => Fin 0
      | _ => ToNumber e
      end
  | VArray _ => NaN
  end.

(** [Number(v)]. *)
Definition Number (v : value) : completion number :=
  if unconvertible v then Throw primitive_error else Normal (ToNumber v).

Definition is_zero (q : Q) : bool := (Qnum q =? 0)%Z.

Definition truthy (v : value) : bool :=
  match v with
  | VUndefined | VNull => false
  | VBool b => b
  | VNum NaN | VNum NegZero => false
  | VNum (Fin q) => negb (is_zero q)
  | VNum _ => true
  | VStr EmptyString => false
  | VStr _ => true
  | VArray _ | VObject _ _ => true
  end.

(** [v === "..."] and [v === true], [v === false]. *)
Definition is_string (v : value) (s : string) : bool :=
  match v with VStr s' => bool_decide (s' = s) | _ => false end.

Definition is_bool (v : value) (b : bool) : bool :=
  match v with VBool b' => Bool.eqb b' b | _ => false end.

(** [a || b]. *)
Definition or_else (a b : value) : value := if truthy a then a else b.

(** [Math.max] and [Math.min] of two numbers; the positive zero is the larger
    of the two zeros. *)
Definition Math_max (a b : number) : number :=
  match a, b with
  | NaN, _ | _, NaN => NaN
  | PosInf, _ | _, PosInf => PosInf
  | NegInf, x | x, NegInf => x
  | NegZero, NegZero => NegZero
  | NegZero, Fin q => if Qle_bool 0 q then Fin q else NegZero
  | Fin p, NegZero => if Qle_bool 0 p then Fin p else NegZero
  | Fin p, Fin q => if Qle_bool p q then Fin q else Fin p
  end.

Definition Math_min (a b : number) : number :=
  match a, b with
  | NaN, _ | _, NaN => NaN
  | NegInf, _ | _, NegInf => NegInf
  | PosInf, x | x, PosInf => x
  | NegZero, NegZero => NegZero
  | NegZero, Fin q => if Qle_bool 0 q then NegZero else Fin q
  | Fin p, NegZero => if Qle_bool 0 p then NegZero else Fin p
  | Fin p, Fin q => if Qle_bool p q then Fin p else Fin q
  end.

(** *** Predicates on numbers *)

Definition is_integer (x : number) : bool :=
  match x with
  | Fin q => (Qnum q mod Zpos (Qden q) =? 0)%Z
  | NegZero => true
  | _ => false
  end.

Definition between (lo hi : Q) (x : number) : bool :=
  match x with
  | Fin q => Qle_bool lo q && Qle_bool q hi
  | NegZero => Qle_bool lo 0 && Qle_bool 0 hi
  | _ => false
  end.

End Js.

(** ** The submission handlers *)

Module Submit.
Import Js.

(** A file as multer hands it over: [mimetype] and the buffer, which the
    handlers only ever read through [buffer.toString("base64")]. *)
Record upload := mkUpload {
  mimetype : string;
  base64 : string
}.

Definition nonempty (s : string) : bool :=
  match s with EmptyString => false | String _ _ => true end.

(** [`data:${file.mimetype || fallback};base64,${file.buffer.toString("base64")}`]. *)
Definition data_uri (fallback : string) (f : upload) : string :=
  "data:" +:+ (if nonempty (mimetype f) then mimetype f else fallback)
          +:+ ";base64," +:+ base64 f.

(** [body.k], [undefined] when the property is missing. *)
Definition get (body : gmap string value) (k : string) : value :=
  default VUndefined (body !! k).

(** What a handler decides before any network traffic: answer at once with
    a status and an [error], throw (the [catch] block then answers 500), or
    post a payload to the provider. *)
Inductive plan (P : Type) :=
| Reject (status : Z) (error : string)
| Threw (message : string)
| Post (url : string) (payload : P).

Arguments Reject {P} status error.
Arguments Threw {P} message.
Arguments Post {P} url payload.

(** What [axios.post] settles with: the provider's response body, or an error
    with [err.response?.data] (when there is a truthy one) and [err.message]. *)
Inductive upstream_result :=
| Created (data : string)
| Failed (response_data : option string) (message : string).

Inductive reply_body :=
| ErrorJson (error : string)
| DataJson (data : string).

Record reply := mkReply {
  status : Z;
  content : reply_body
}.

(** The tail shared by both handlers: the provider is called once, with the
    payload, and its answer is relayed; a failure is answered with 500 and
    [err.response?.data || err.message].  The second component lists the
    requests sent to the provider. *)
Definition conduct {P : Type} (axios_post : string -> P -> upstream_result)
    (pl : plan P) : reply * list (string * P) :=
  match pl with
  | Reject st e => (mkReply st (ErrorJson e), [])
  | Threw m => (mkReply 500 (ErrorJson m), [])
  | Post url payload =>
      (match axios_post url payload with
       | Created data => mkReply 200 (DataJson data)
       | Failed (Some data) _ => mkReply 500 (ErrorJson data)
       | Failed None m => mkReply 500 (ErrorJson m)
       end, [(url, payload)])
  end.

(** *** The payload object of [POST /image-to-3d] *)

(** What an object inherits from: [Object.prototype], as [{}] does, nothing,
    or an array or object of the body. *)
Inductive prototype :=
| ObjectPrototype
| NoPrototype
| Parent (v : value).

(** An object under construction: its own properties and its prototype. *)
Record object := mkObject {
  own : gmap string value;
  proto : prototype
}.

(** [{}]. *)
Definition empty_object : object := mkObject ∅ ObjectPrototype.

(** Whether an assignment to [o.__proto__] finds the accessor of
    [Object.prototype]: the object has no such property of its own, and its
    prototype chain leads to [Object.prototype] without passing a data
    property of that name. *)
Definition reaches_setter (o : object) : bool :=
  match own o !! "__proto__" with
  | Some _ => false
  | None =>
      match proto o with
      | ObjectPrototype => true
      | NoPrototype => false
      | Parent (VObject inherits props) =>
          match props !! "__proto__" with Some _ => false | None => inherits end
      | Parent _ => true
      end
  end.

(** The accessor: an object or [null] becomes the prototype, any other value
    is ignored. *)
Definition set_prototype (v : value) (o : object) : object :=
  match v with
  | VNull => mkObject (own o) NoPrototype
  | VArray _ | VObject _ _ => mkObject (own o) (Parent v)
  | _ => o
  end.

(** [o[k] = v].  Every property on the prototype chain of [o] other than
    [__proto__] of [Object.prototype] is a writable data property, so the
    assignment creates or updates a property of [o] itself. *)
Definition assign (k : string) (v : value) (o : object) : object :=
  if bool_decide (k = "__proto__") && reaches_setter o then set_prototype v o
  else mkObject (<[k := v]> (own o)) (proto o).

(** [o.k], for a key [k] that [Object.prototype] and [Array.prototype] do not
    define and that is no index: the property of [o] itself, or else the one
    of the object it inherits from. *)
Definition read (o : object) (k : string) : value :=
  match own o !! k with
  | Some v => v
  | None =>
      match proto o with
      | Parent (VObject _ props) => default VUndefined (props !! k)
      | _ => VUndefined
      end
  end.

(** *** [POST /image-to-3d] *)

Record request := mkRequest {
  file : option upload;
  body : option (gmap string value)
}.

Definition booleanFields : list string :=
  ["should_remesh"; "should_texture"; "enable_pbr"; "is_a_t_pose"; "moderation"].

Definition numberFields : list string := ["target_polycount"].

(** The body of the loop: the value stored under key [k]. *)
Definition coerce (k : string) (v : value) : completion value :=
  if bool_decide (k ∈ booleanFields) then mret (VBool (is_string v "true" || is_bool v true))
  else if bool_decide (k ∈ numberFields) then x ← Number v; mret (VNum x)
  else mret v.

(** [for (const k of Object.keys(req.body)) { ...; payload[k] = v; }]. *)
Definition copy_fields (b : gmap string value) (payload : object) : completion object :=
  map_fold (fun k v acc => o ← acc; x ← coerce k v; mret (assign k x o)) (mret payload) b.

(** [if (payload.should_texture === undefined) payload.should_texture = true;]. *)
Definition default_texture (payload : object) : object :=
  match read payload "should_texture" with
  | VUndefined => assign "should_texture" (VBool true) payload
  | _ => payload
  end.

Definition meshy_url : string := "https://api.meshy.ai/openapi/v1/image-to-3d".

(** The image source chosen by the [if / else if / else] at the top. *)
Definition image_source (req : request) : option value :=
  match file req with
  | Some f => Some (VStr (data_uri "image/png" f))
  | None =>
      match body req with
      | Some b => if truthy (get b "image_url") then Some (get b "image_url") else None
      | None => None
      end
  end.

(** What is posted is the JSON text of the payload object, which holds the
    properties of the object itself: they are kept as the payload. *)
Definition image_to_3d (req : request) : plan (gmap string value) :=
  match image_source req with
  | None => Reject 400 "Provide an image file or image_url"
  | Some url =>
      match body req with
      | None => Threw "Cannot convert undefined or null to object"
      | Some b =>
          match copy_fields b (assign "image_url" url empty_object) with
          | Throw m => Threw m
          | Normal payload => Post meshy_url (own (default_texture payload))
          end
      end
  end.

Definition post_image_to_3d (axios_post : string -> gmap string value -> upstream_result)
    (req : request) : reply * list (string * gmap string value) :=
  conduct axios_post (image_to_3d req).

(** *** [POST /fashn/tryon] *)

Record tryon_request := mkTryon {
  person : option upload;
  garment : option upload;
  tryon_body : gmap string value
}.

(** The payload: the nested [inputs] object and the other top-level
    properties. *)
Record tryon_payload := mkPayload {
  model_image : string;
  garment_image : string;
  top : gmap string value
}.

(** [const bool = (v, d=false) => ...]. *)
Definition bool_ (v : value) (d : bool) : bool :=
  if is_string v "true" || is_bool v true then true
  else if is_string v "false" || is_bool v false then false
  else d.

(** [const num = (v) => (v === undefined ? undefined : Number(v))]. *)
Definition num (v : value) : completion (option number) :=
  match v with
  | VUndefined => mret None
  | _ => x ← Number v; mret (Some x)
  end.

(** [Math.min(Math.max(x, 1), 4)]. *)
Definition clamp (x : number) : number :=
  Math_min (Math_max x (Fin 1)) (Fin 4).

(** [Math.min(Math.max(num(v) ?? 1, 1), 4)]. *)
Definition num_samples (v : value) : completion number :=
  x ← num v; mret (clamp (default (Fin 1) x)).

(** The object literal, once [seed] and [num_samples] are evaluated. *)
Definition tryon_object (b : gmap string value) (seed samples : number) : gmap string value :=
  <["model_name" := VStr "tryon-v1.6"]> (
  <["category" := or_else (get b "category") (VStr "auto")]> (
  <["segmentation_free" := VBool (bool_ (get b "segmentation_free") true)]> (
  <["moderation_level" := or_else (get b "moderation_level") (VStr "permissive")]> (
  <["garment_photo_type" := or_else (get b "garment_photo_type") (VStr "auto")]> (
  <["mode" := or_else (get b "mode") (VStr "balanced")]> (
  <["seed" := VNum seed]> (
  <["num_samples" := VNum samples]> (
  <["output_format" := or_else (get b "output_format") (VStr "png")]> (
  <["return_base64" := VBool (bool_ (get b "return_base64") false)]> ∅))))))))).

(** The properties are evaluated in the order of the literal; [seed] and
    [num_samples] are the two that can throw. *)
Definition tryon_fields (b : gmap string value) : completion (gmap string value) :=
  seed ← num (get b "seed");
  samples ← num_samples (get b "num_samples");
  mret (tryon_object b (default (Fin 42) seed) samples).

Definition fashn_url : string := "https://api.fashn.ai/v1/run".

Definition fashn_tryon (req : tryon_request) : plan tryon_payload :=
  match person req, garment req with
  | Some pf, Some gf =>
      match tryon_fields (tryon_body req) with
      | Normal fields =>
          Post fashn_url
            (mkPayload (data_uri "image/jpeg" pf) (data_uri "image/jpeg" gf) fields)
      | Throw m => Threw m
      end
  | _, _ => Reject 400 "Please upload both person and garment images."
  end.

Definition post_fashn_tryon (axios_post : string -> tryon_payload -> upstream_result)
    (req : tryon_request) : reply * list (string * tryon_payload) :=
  conduct axios_post (fashn_tryon req).

(** The [num_samples] property of what [POST /fashn/tryon] sends, if it sends
    anything. *)
Definition submitted_num_samples (req : tryon_request) : option value :=
  match fashn_tryon req with
  | Post _ payload => top payload !! "num_samples"
  | _ => None
  end.

(** The optional parameters [POST /fashn/tryon] reads from the body. *)
Definition tryon_params : list string :=
  ["category"; "segmentation_free"; "moderation_level"; "garment_photo_type"; "mode";
   "seed"; "num_samples"; "output_format"; "return_base64"].

(** *** The properties under study *)

(** The prototype the loop leaves the payload with: the [__proto__] field of
    the body when that is [null], an array or an object. *)
Definition prototype_from (b : gmap string value) : prototype :=
  match b !! "__proto__" with
  | Some VNull => NoPrototype
  | Some (VArray items) => Parent (VArray items)
  | Some (VObject inherits props) => Parent (VObject inherits props)
  | _ => ObjectPrototype
  end.

(** What the payload inherits under key [k] after the loop. *)
Definition inherited (b : gmap string value) (k : string) : value :=
  match prototype_from b with
  | Parent (VObject _ props) => default VUndefined (props !! k)
  | _ => VUndefined
  end.

(** Every body field outside [recognised] is found unchanged in the payload. *)
Definition passes_through (recognised : list string) (b payload : gmap string value) : Prop :=
  forall k v, k ∉ recognised -> b !! k = Some v -> payload !! k = Some v.

(** An integer between 1 and 4. *)
Definition sample_count (x : number) : bool :=
  is_integer x && between 1 4 x.

(** A boolean-typed field supplied as ["true"], ["false"], [true] or [false],
    and the boolean it stands for. *)
Definition boolean_input (v : value) : option bool :=
  match v with
  | VBool b => Some b
  | VStr s => if bool_decide (s = "true") then Some true
              else if bool_decide (s = "false") then Some false else None
  | _ => None
  end.

End Submit.

(** ** [GET /download] *)

Module Download.

(** [s.split("?")[0]] for [stop] the test for ["?"]: the characters before the
    first one that satisfies [stop]. *)
Fixpoint before (stop : ascii -> bool) (s : string) : string :=
  match s with
  | EmptyString => EmptyString
  | String c s' => if stop c then EmptyString else String c (before stop s')
  end.

Definition is_char (c : ascii) : ascii -> bool := fun c' => (c' =? c)%char.

Fixpoint drop_slashes (l : list ascii) : list ascii :=
  match l with
  | c :: l' => if is_char "/" c then drop_slashes l' else l
  | [] => []
  end.

Fixpoint until_slash (l : list ascii) : list ascii :=
  match l with
  | c :: l' => if is_char "/" c then [] else c :: until_slash l'
  | [] => []
  end.

(** [path.basename] (POSIX): trailing slashes are skipped, and the result is
    what stands between the last slash before them and them. *)
Definition basename (s : string) : string :=
  string_of_list_ascii
    (rev (until_slash (drop_slashes (rev (list_ascii_of_string s))))).

(** [path.basename(decoded.split("?")[0])]. *)
Definition filename (decoded : string) : string :=
  basename (before (is_char "?") decoded).

(** [`attachment; filename="${filename}"`]. *)
Definition content_disposition (decoded : string) : string :=
  "attachment; filename=" +:+ dquote +:+ filename decoded +:+ dquote.

(** The test [res.setHeader] makes on a header value: every character must be
    TAB or lie in U+0020..U+007E or in U+0080..U+00FF.  In UTF-8 the latter
    are the two-byte characters that start with the byte C2 or C3. *)
Fixpoint header_value_ok (s : string) : bool :=
  match s with
  | EmptyString => true
  | String c s' =>
      let n := N_of_ascii c in
      if ((n =? 9) || (32 <=? n) && (n <=? 126))%N then header_value_ok s'
      else if ((n =? 194) || (n =? 195))%N then
        match s' with
        | String c' s'' =>
            ((128 <=? N_of_ascii c') && (N_of_ascii c' <=? 191))%N && header_value_ok s''
        | EmptyString => false
        end
      else false
  end.

(** [err.message] of the [TypeError] [res.setHeader] throws otherwise. *)
Definition invalid_header : string :=
  "Invalid character in header content [" +:+ dquote +:+ "Content-Disposition"
    +:+ dquote +:+ "]".

(** What the handler answers: 400 with a text, 500 with [{error}], or the
    remote stream under a [Content-Disposition] header. *)
Inductive answer :=
| BadRequest (text : string)
| ServerError (error : string)
| Relay (disposition : string) (stream : string).

Section Handler.

(** [decodeURIComponent], [None] when it throws a [URIError]. *)
Variable decodeURIComponent : string -> option string.

(** [axios.get(url, { responseType: "stream" })]: the stream, or the message
    of the error. *)
Variable axios_get : string -> string + string.

Definition uri_error : string := "URI malformed".

(** The second component lists the URLs fetched.  [res.setHeader] stands
    inside [try], after the fetch: when it throws, the [catch] block answers
    500 and the stream that was fetched is not relayed. *)
Definition download (url : option string) : answer * list string :=
  match url with
  | None | Some EmptyString => (BadRequest "Missing url query param", [])
  | Some u =>
      match decodeURIComponent u with
      | None => (ServerError uri_error, [])
      | Some decoded =>
          match axios_get decoded with
          | inl stream =>
              (if header_value_ok (content_disposition decoded)
               then Relay (content_disposition decoded) stream
               else ServerError invalid_header,
               [decoded])
          | inr m =>
              (ServerError (match m with EmptyString => "download failed" | _ => m end),
               [decoded])
          end
      end
  end.

End Handler.

(** The file name as the specification words it: the last path segment of
    the decoded URL with the query string and the fragment stripped. *)
Definition stripped_filename (decoded : string) : string :=
  basename (before (fun c => is_char "?" c || is_char "#" c) decoded).

Fixpoint has_char (c : ascii) (s : string) : bool :=
  match s with
  | EmptyString => false
  | String c' s' => is_char c c' || has_char c s'
  end.

End Download.

(** ** [encodeURIComponent] and [decodeURIComponent] *)

(** A JavaScript string is kept as the bytes of its UTF-8 encoding, so a
    character outside ASCII is two to four bytes here.  A string with a lone
    surrogate, on which [encodeURIComponent] throws, has no such encoding and
    is outside the model. *)
Module Uri.

Definition in_range (lo hi : N) (c : ascii) : bool :=
  ((lo <=? N_of_ascii c) && (N_of_ascii c <=? hi))%N.

Definition uriAlpha (c : ascii) : bool := in_range 65 90 c || in_range 97 122 c.

Definition DecimalDigit (c : ascii) : bool := in_range 48 57 c.

Definition uriMark (c : ascii) : bool :=
  existsb (Ascii.eqb c) (list_ascii_of_string "-_.!~*'()").

Definition uriUnreserved (c : ascii) : bool :=
  uriAlpha c || DecimalDigit c || uriMark c.

(** The upper-case hexadecimal digit of [n < 16]. *)
Definition hex_digit (n : N) : ascii :=
  ascii_of_N (if (n <? 10)%N then 48 + n else 55 + n)%N.

(** [%XY] for the byte [c]. *)
Definition escape (c : ascii) : string :=
  String "%" (String (hex_digit (N_of_ascii c / 16))
             (String (hex_digit (N_of_ascii c mod 16)) EmptyString)).

(** Every byte of the UTF-8 encoding is escaped, except the unreserved
    characters, which stand for themselves. *)
Fixpoint encodeURIComponent (s : string) : string :=
  match s with
  | EmptyString => EmptyString
  | String c s' =>
      (if uriUnreserved c then String c EmptyString else escape c)
        +:+ encodeURIComponent s'
  end.

Definition hex_value (c : ascii) : option N :=
  let n := N_of_ascii c in
  if in_range 48 57 c then Some (n - 48)%N
  else if in_range 65 70 c then Some (n - 55)%N
  else if in_range 97 102 c then Some (n - 87)%N
  else None.

(** The text read left to right: a character that stands for itself, or the
    byte of an escape [%XY]. *)
Inductive token :=
| Raw (c : ascii)
| Esc (b : ascii).

(** [None] when a ["%"] is not followed by two hexadecimal digits. *)
Fixpoint tokens (s : string) : option (list token) :=
  match s with
  | EmptyString => Some []
  | String c s' =>
      if (c =? "%")%char then
        match s' with
        | String h (String l s'') =>
            match hex_value h, hex_value l, tokens s'' with
            | Some x, Some y, Some ts => Some (Esc (ascii_of_N (16 * x + y)) :: ts)
            | _, _, _ => None
            end
        | _ => None
        end
      else
        match tokens s' with
        | Some ts => Some (Raw c :: ts)
        | None => None
        end
  end.

(** The token [encodeURIComponent] writes a byte as. *)
Definition written_as (c : ascii) : token :=
  if uriUnreserved c then Raw c else Esc c.

(** The well-formed UTF-8 sequences by their first byte: how many bytes
    follow it, and the range of the first of them (the others range over
    [80..BF]). *)
Inductive width := Two | Three | Four.

Definition lead (b : ascii) : option (width * N * N) :=
  let n := N_of_ascii b in
  if in_range 194 223 b then Some (Two, 128, 191)%N
  else if (n =? 224)%N then Some (Three, 160, 191)%N
  else if (n =? 237)%N then Some (Three, 128, 159)%N
  else if in_range 225 239 b then Some (Three, 128, 191)%N
  else if (n =? 240)%N then Some (Four, 144, 191)%N
  else if in_range 241 243 b then Some (Four, 128, 191)%N
  else if (n =? 244)%N then Some (Four, 128, 143)%N
  else None.

(** An escaped byte in the given range. *)
Definition continuation (lo hi : N) (t : token) : option ascii :=
  match t with
  | Esc b => if in_range lo hi b then Some b else None
  | Raw _ => None
  end.

(** The decoded bytes: an escaped byte below 128 is a character; one from 128
    on must start a well-formed UTF-8 sequence all of whose bytes are
    escaped. *)
Fixpoint octets (ts : list token) : option (list ascii) :=
  match ts with
  | [] => Some []
  | Raw c :: r =>
      match octets r with Some l => Some (c :: l) | None => None end
  | Esc b :: r =>
      if (N_of_ascii b <? 128)%N then
        match octets r with Some l => Some (b :: l) | None => None end
      else
        match lead b, r with
        | Some (Two, lo, hi), t1 :: r1 =>
            match continuation lo hi t1, octets r1 with
            | Some b1, Some l => Some (b :: b1 :: l)
            | _, _ => None
            end
        | Some (Three, lo, hi), t1 :: t2 :: r2 =>
            match continuation lo hi t1, continuation 128 191 t2, octets r2 with
            | Some b1, Some b2, Some l => Some (b :: b1 :: b2 :: l)
            | _, _, _ => None
            end
        | Some (Four, lo, hi), t1 :: t2 :: t3 :: r3 =>
            match continuation lo hi t1, continuation 128 191 t2,
                  continuation 128 191 t3, octets r3 with
            | Some b1, Some b2, Some b3, Some l => Some (b :: b1 :: b2 :: b3 :: l)
            | _, _, _, _ => None
            end
        | _, _ => None
        end
  end.

(** [None] when the call throws a [URIError]. *)
Definition decodeURIComponent (s : string) : option string :=
  match tokens s with
  | Some ts =>
      match octets ts with
      | Some l => Some (string_of_list_ascii l)
      | None => None
      end
  | None => None
  end.

(** Whether the bytes are the UTF-8 encoding of a text. *)
Fixpoint utf8 (l : list ascii) : bool :=
  match l with
  | [] => true
  | b :: r =>
      if (N_of_ascii b <? 128)%N then utf8 r
      else
        match lead b, r with
        | Some (Two, lo, hi), b1 :: r1 => in_range lo hi b1 && utf8 r1
        | Some (Three, lo, hi), b1 :: b2 :: r2 =>
            in_range lo hi b1 && in_range 128 191 b2 && utf8 r2
        | Some (Four, lo, hi), b1 :: b2 :: b3 :: r3 =>
            in_range lo hi b1 && in_range 128 191 b2 && in_range 128 191 b3 && utf8 r3
        | _, _ => false
        end
  end.

Definition well_formed (s : string) : bool := utf8 (list_ascii_of_string s).

(** Whether the text starts with two hexadecimal digits. *)
Definition two_hex (s : string) : bool :=
  match s with
  | String h (String l _) =>
      match hex_value h, hex_value l with
      | Some _, Some _ => true
      | _, _ => false
      end
  | _ => false
  end.

Fixpoint all_chars (ok : ascii -> bool) (s : string) : bool :=
  match s with
  | EmptyString => true
  | String c s' => ok c && all_chars ok s'
  end.

End Uri.

(** ** [GET /image-to-3d/:taskId] and [GET /fashn/tryon/:id] *)

Module Status.
Import Submit.

Definition status_base (p : Sse.provider) : string :=
  match p with
  | Sse.Meshy => "https://api.meshy.ai/openapi/v1/image-to-3d/"
  | Sse.Fashn => "https://api.fashn.ai/v1/status/"
  end.

(** [`${base}${encodeURIComponent(id)}`], also the URL the pollers fetch. *)
Definition status_url (p : Sse.provider) (id : string) : string :=
  status_base p +:+ Uri.encodeURIComponent id.

(** The provider is asked once; its answer is relayed with [res.json], a
    failure is answered with 500 and [err.response?.data || err.message].  The
    second component lists the URLs fetched. *)
Definition get_status (axios_get : string -> upstream_result)
    (p : Sse.provider) (id : string) : reply * list string :=
  (match axios_get (status_url p id) with
   | Created data => mkReply 200 (DataJson data)
   | Failed (Some data) _ => mkReply 500 (ErrorJson data)
   | Failed None m => mkReply 500 (ErrorJson m)
   end, [status_url p id]).

End Status.

(** ** Start-up and [GET /health] *)

Module Startup.

(** [process.env]: the variables that are set, with their texts. *)
Definition lookup_env (env : gmap string string) (k : string) : option string :=
  match env !! k with
  | Some EmptyString => None
  | o => o
  end.

Record config := mkConfig {
  PORT : Js.value;
  MESHY_API_KEY : string;
  FASHN_API_KEY : string
}.

(** The top of server.js: the process exits with code 1 after printing a
    message when a key is missing, and listens otherwise. *)
Inductive outcome :=
| Exit (code : Z) (message : string)
| Listening (c : config).

Definition startup (env : gmap string string) : outcome :=
  let port := match lookup_env env "PORT" with
              | Some p => Js.VStr p
              | None => Js.VNum (Js.Fin 3000)
              end in
  match lookup_env env "MESHY_API_KEY" with
  | None => Exit 1 "MESHY_API_KEY not set in .env"
  | Some mk =>
      match lookup_env env "FASHN_API_KEY" with
      | None => Exit 1 "FASHN_API_KEY not set in .env"
      | Some fk => Listening (mkConfig port mk fk)
      end
  end.

(** [{ status: "ok", api_key_configured: Boolean(MESHY_API_KEY) }]. *)
Definition health (c : config) : string * bool :=
  ("ok", Submit.nonempty (MESHY_API_KEY c)).

End Startup.

(** ** Further views of a polling session *)

Module SseViews.
Import Sse.

(** What one turn of the event loop adds to the response log. *)
Inductive block : list chan_entry -> Prop :=
| block_data d : block [Wrote (EvMessage d)]
| block_finished d : block [Wrote (EvMessage d); Wrote (EvFinished d); Ended]
| block_data_error d m : block [Wrote (EvMessage d); Wrote (EvError m); Ended]
| block_error m : block [Wrote (EvError m); Ended]
| block_gone : block [Disconnected].

Inductive framed : list chan_entry -> Prop :=
| framed_nil : framed []
| framed_snoc w b : framed w -> block b -> framed (w ++ b).

(** A trace without disconnect in which every settled fetch resolved with a
    status outside the terminal set. *)
Definition benign (p : provider) (tr : list input) : bool :=
  forallb (fun i => match i with
                    | Tick => true
                    | Settle _ (Resolved d) =>
                        match d with JsonNull => false | JsonValue _ _ => negb (terminal p d) end
                    | _ => false
                    end) tr.

Definition only_data (w : list chan_entry) : bool :=
  forallb (fun c => match c with Wrote (EvMessage _) => true | _ => false end) w.

Definition disconnected (w : list chan_entry) : bool :=
  existsb (fun c => match c with Disconnected => true | _ => false end) w.

(** The fetches in flight are distinct fetches that were issued. *)
Definition tracked (s : session) : Prop :=
  NoDup (in_flight s) /\ forall id, In id (in_flight s) -> (id < length (fetches s))%nat.

(** What a session without overlap keeps: at most one fetch in flight, none
    once the response is ended, and a log in which [res.end()] comes last. *)
Definition orderly (s : session) : Prop :=
  (length (in_flight s) <= 1)%nat /\
  (ended (wire s) = true -> interval s = None /\ in_flight s = []) /\
  calls (wire s) = map Wrote (written (wire s)) ++ (if ended (wire s) then [Ended] else []).

(** What a session keeps while it only sees statuses outside the terminal
    set. *)
Definition polling (s : session) : Prop :=
  stopped s = false /\ interval s <> None /\ only_data (wire s) = true /\
  tracked s /\ (length (wire s) + length (in_flight s) = length (fetches s))%nat.

End SseViews.

(** ** The defaults of [POST /fashn/tryon] *)

Module TryonDefaults.

(** The parameters read with [req.body.k || "..."], with their defaults. *)
Definition text_defaults : list (string * string) :=
  [("category", "auto"); ("moderation_level", "permissive");
   ("garment_photo_type", "auto"); ("mode", "balanced"); ("output_format", "png")].

End TryonDefaults.

(** * Theorems *)

(** ** The SSE pollers *)

Module SseFacts.
Import Sse.

(** *** The response log *)

Lemma written_app w1 w2 : written (w1 ++ w2) = written w1 ++ written w2.
Proof.
  induction w1 as [|c w1 IH]; [reflexivity|].
  destruct c; simpl; rewrite IH; reflexivity.
Qed.

Lemma calls_app w1 w2 : calls (w1 ++ w2) = calls w1 ++ calls w2.
Proof.
  induction w1 as [|c w1 IH]; [reflexivity|].
  destruct c; simpl; rewrite IH; reflexivity.
Qed.

Lemma ended_In w : ended w = true <-> In Ended w.
Proof.
  unfold ended. rewrite existsb_exists. split.
  - intros [c [Hc H]]. destruct c; try discriminate. exact Hc.
  - intros H. exists Ended. auto.
Qed.

Lemma count_finished_app l1 l2 :
  count_finished (l1 ++ l2) = (count_finished l1 + count_finished l2)%nat.
Proof. unfold count_finished. rewrite List.filter_app, List.length_app. reflexivity. Qed.

(** A log in which every [finished] frame is followed by [res.end()] holds no
    such frame as long as the response has not been ended. *)
Lemma no_finished_before_end w :
  (forall d, In (Wrote (EvFinished d)) w -> In Ended w) ->
  ended w = false -> count_finished (written w) = 0%nat.
Proof.
  intros Hfin Hend.
  assert (Hno : forall d, ~ In (Wrote (EvFinished d)) w).
  { intros d Hd. apply Hfin, ended_In in Hd. congruence. }
  clear Hfin Hend. unfold count_finished.
  induction w as [|c w IH]; [reflexivity|].
  assert (Hw : forall d, ~ In (Wrote (EvFinished d)) w)
    by (intros d Hd; apply (Hno d); right; exact Hd).
  destruct c as [e| |]; simpl; auto.
  destruct e as [d0|d0|m0]; simpl; auto.
  exfalso. apply (Hno d0). left; reflexivity.
Qed.

Lemma count_errors_app l1 l2 :
  count_errors (l1 ++ l2) = (count_errors l1 + count_errors l2)%nat.
Proof. unfold count_errors. rewrite List.filter_app, List.length_app. reflexivity. Qed.

(** Likewise for [error] frames. *)
Lemma no_error_before_end w :
  (forall m, In (Wrote (EvError m)) w -> In Ended w) ->
  ended w = false -> count_errors (written w) = 0%nat.
Proof.
  intros Herr Hend.
  assert (Hno : forall m, ~ In (Wrote (EvError m)) w).
  { intros m Hm. apply Herr, ended_In in Hm. congruence. }
  clear Herr Hend. unfold count_errors.
  induction w as [|c w IH]; [reflexivity|].
  assert (Hw : forall m, ~ In (Wrote (EvError m)) w)
    by (intros m Hm; apply (Hno m); right; exact Hm).
  destruct c as [e| |]; simpl; auto.
  destruct e as [d0|d0|m0]; simpl; auto.
  exfalso. apply (Hno m0). left; reflexivity.
Qed.

(** *** Single steps *)

Lemma run_app p s tr1 tr2 : run p s (tr1 ++ tr2) = run p (run p s tr1) tr2.
Proof. apply fold_left_app. Qed.

Lemma run_cons p s i tr : run p s (i :: tr) = run p (step p s i) tr.
Proof. reflexivity. Qed.

Lemma not_pending_settle p id r s :
  pending id s = false -> on_settle p id r s = s.
Proof. unfold pending, on_settle. intros ->. reflexivity. Qed.

(** Every step leaves a cleared timer cleared and starts no fetch then. *)
Lemma step_cleared p s i :
  interval s = None ->
  interval (step p s i) = None /\ fetches (step p s i) = fetches s /\
  (length (in_flight (step p s i)) <= length (in_flight s))%nat.
Proof.
  intros Hi. destruct i as [|id r|]; simpl.
  - unfold on_tick. rewrite Hi. auto.
  - unfold on_settle. case_bool_decide as Hin; [|auto].
    assert (Hlen : (length (List.remove Nat.eq_dec id (in_flight s)) <= length (in_flight s))%nat)
      by apply remove_length_le.
    destruct r as [d|m].
    + destruct d as [|st txt]; [destruct p; simpl; auto|].
      destruct (is_terminal p st); [destruct p; simpl; auto|simpl; auto].
    + destruct p; simpl; auto.
  - simpl. auto.
Qed.

Lemma run_cleared p s tr :
  interval s = None ->
  interval (run p s tr) = None /\ fetches (run p s tr) = fetches s.
Proof.
  revert s. induction tr as [|i tr IH]; intros s Hi; [auto|].
  rewrite run_cons. destruct (step_cleared p s i Hi) as (H1 & H2 & _).
  destruct (IH _ H1) as [H3 H4]. rewrite H3, H4. auto.
Qed.

(** With the timer cleared and nothing in flight, the handler is never
    entered again: only the transport can still add to the log. *)
Lemma step_quiet p s i :
  interval s = None -> in_flight s = [] ->
  interval (step p s i) = None /\ in_flight (step p s i) = [] /\
  calls (wire (step p s i)) = calls (wire s) /\
  written (wire (step p s i)) = written (wire s).
Proof.
  intros Hi Hf. destruct i as [|id r|]; simpl.
  - unfold on_tick. rewrite Hi. auto.
  - rewrite not_pending_settle; [auto|].
    unfold pending. rewrite Hf. reflexivity.
  - rewrite calls_app, written_app. simpl. rewrite !app_nil_r. auto.
Qed.

Lemma run_quiet p s tr :
  interval s = None -> in_flight s = [] ->
  calls (wire (run p s tr)) = calls (wire s) /\
  written (wire (run p s tr)) = written (wire s).
Proof.
  revert s. induction tr as [|i tr IH]; intros s Hi Hf; [auto|].
  rewrite run_cons. destruct (step_quiet p s i Hi Hf) as (H1 & H2 & H3 & H4).
  destruct (IH _ H1 H2) as [H5 H6]. rewrite H5, H6. auto.
Qed.

(** *** Sessions reached from [subscribe] *)

Lemma schedule_snoc first n :
  schedule first (S n) = schedule first n ++ [first + intervalMs * Z.of_nat n].
Proof.
  revert first. induction n as [|n IH]; intros first.
  - simpl. f_equal. unfold intervalMs. lia.
  - change (schedule first (S (S n))) with (first :: schedule (first + intervalMs) (S n)).
    rewrite IH. cbn [app].
    replace (first + intervalMs + intervalMs * Z.of_nat n)
      with (first + intervalMs * Z.of_nat (S n)) by (unfold intervalMs; lia).
    reflexivity.
Qed.

Lemma ticks_snoc tr i :
  ticks (tr ++ [i]) = (ticks tr + match i with Tick => 1 | _ => 0 end)%nat.
Proof.
  unfold ticks. rewrite List.filter_app, List.length_app.
  destruct i; reflexivity.
Qed.

Lemma run_snoc p s tr i : run p s (tr ++ [i]) = step p (run p s tr) i.
Proof. rewrite run_app. reflexivity. Qed.

Lemma settle_on_schedule p t0 n id r s :
  on_schedule t0 n s -> on_schedule t0 n (on_settle p id r s).
Proof.
  unfold on_schedule, on_settle. intros [Hf Hs].
  case_bool_decide as Hin; [|auto].
  assert (Hle : (length (fetches s) <= n)%nat).
  { revert Hs. destruct (stopped s); simpl; intros [_ Hl]; lia. }
  destruct r as [d|m].
  - destruct d as [|st txt]; [destruct p; simpl; auto|].
    destruct (is_terminal p st); [destruct p; simpl; auto|simpl; auto].
  - destruct p; simpl; auto.
Qed.

Lemma run_on_schedule p t0 tr :
  on_schedule t0 (ticks tr) (run p (subscribe t0) tr).
Proof.
  induction tr as [|i tr IH] using rev_ind.
  - unfold on_schedule. simpl. split; [reflexivity|].
    split; [f_equal; unfold intervalMs; lia|reflexivity].
  - rewrite run_snoc, ticks_snoc. set (s := run p (subscribe t0) tr) in *.
    destruct i as [|id r|]; simpl.
    + destruct IH as [Hf Hs]. unfold on_schedule, on_tick.
      destruct (stopped s) eqn:Hst; destruct Hs as [Hi Hl]; rewrite Hi.
      * rewrite Hst. split; [exact Hf|]. split; [exact Hi|lia].
      * simpl. rewrite Hst. simpl.
        rewrite List.length_app. simpl. rewrite Nat.add_1_r. rewrite Hst.
        split; [|split; [f_equal; unfold intervalMs; lia|lia]].
        rewrite schedule_snoc, <- Hf, Hl. do 2 f_equal. unfold intervalMs. lia.
    + rewrite Nat.add_0_r. apply settle_on_schedule, IH.
    + rewrite Nat.add_0_r. destruct IH as [Hf Hs]. unfold on_schedule. simpl.
      split; [exact Hf|]. split; [reflexivity|].
      revert Hs. destruct (stopped s); simpl; intros [_ Hl]; lia.
Qed.

Lemma step_finished_then_ended p s i :
  finished_then_ended (wire s) -> finished_then_ended (wire (step p s i)).
Proof.
  unfold finished_then_ended. intros H.
  assert (Hmsg : forall e, (forall d, e <> EvFinished d) ->
            forall d, In (Wrote (EvFinished d)) (wire s ++ [Wrote e]) -> In Ended (wire s ++ [Wrote e])).
  { intros e He d Hd. apply in_app_iff in Hd. apply in_app_iff.
    destruct Hd as [Hd|[Hd|[]]]; [left; eauto|]. inversion Hd. exfalso. eapply He; eauto. }
  assert (Hend : forall w d, In (Wrote (EvFinished d)) (w ++ [Ended]) -> In Ended (w ++ [Ended])).
  { intros w d _. apply in_app_iff. right. left. reflexivity. }
  destruct i as [|id r|]; simpl.
  - unfold on_tick. destruct (interval s); [|exact H]. simpl.
    destruct (stopped s); exact H.
  - unfold on_settle. case_bool_decide; [|exact H].
    destruct r as [d|m].
    + destruct d as [|st txt]; [destruct p; simpl; apply Hend|].
      destruct (is_terminal p st); [destruct p; simpl; apply Hend|].
      simpl. apply Hmsg. discriminate.
    + destruct p; simpl; apply Hend.
  - intros d Hd. apply in_app_iff in Hd. apply in_app_iff.
    destruct Hd as [Hd|[Hd|[]]]; [left; eauto|discriminate].
Qed.

Lemma run_finished_then_ended p t0 tr :
  finished_then_ended (wire (run p (subscribe t0) tr)).
Proof.
  induction tr as [|i tr IH] using rev_ind.
  - intros d [].
  - rewrite run_snoc. apply step_finished_then_ended, IH.
Qed.

Lemma step_error_then_ended p s i :
  error_then_ended (wire s) -> error_then_ended (wire (step p s i)).
Proof.
  unfold error_then_ended. intros H.
  assert (Hmsg : forall e, (forall m, e <> EvError m) ->
            forall m, In (Wrote (EvError m)) (wire s ++ [Wrote e]) -> In Ended (wire s ++ [Wrote e])).
  { intros e He m Hm. apply in_app_iff in Hm. apply in_app_iff.
    destruct Hm as [Hm|[Hm|[]]]; [left; eauto|]. inversion Hm. exfalso. eapply He; eauto. }
  assert (Hend : forall w m, In (Wrote (EvError m)) (w ++ [Ended]) -> In Ended (w ++ [Ended])).
  { intros w m _. apply in_app_iff. right. left. reflexivity. }
  destruct i as [|id r|]; simpl.
  - unfold on_tick. destruct (interval s); [|exact H]. simpl.
    destruct (stopped s); exact H.
  - unfold on_settle. case_bool_decide; [|exact H].
    destruct r as [d|m].
    + destruct d as [|st txt]; [destruct p; simpl; apply Hend|].
      destruct (is_terminal p st); [destruct p; simpl; apply Hend|].
      simpl. apply Hmsg. discriminate.
    + destruct p; simpl; apply Hend.
  - intros m Hm. apply in_app_iff in Hm. apply in_app_iff.
    destruct Hm as [Hm|[Hm|[]]]; [left; eauto|discriminate].
Qed.

Lemma run_error_then_ended p t0 tr :
  error_then_ended (wire (run p (subscribe t0) tr)).
Proof.
  induction tr as [|i tr IH] using rev_ind.
  - intros m [].
  - rewrite run_snoc. apply step_error_then_ended, IH.
Qed.

(** *** What one settled fetch does *)

Lemma settle_terminal p s id d :
  pending id s = true -> terminal p d = true ->
  let s' := step p s (Settle id (Resolved d)) in
  wire s' = wire s ++ [Wrote (EvMessage d); Wrote (EvFinished d); Ended] /\
  stopped s' = true /\ interval s' = None /\ fetches s' = fetches s /\
  in_flight s' = List.remove Nat.eq_dec id (in_flight s).
Proof.
  unfold pending. intros Hin Ht. simpl. unfold on_settle. rewrite Hin.
  destruct d as [|st txt]; [discriminate|]. simpl in Ht. rewrite Ht.
  destruct p; simpl; rewrite <- !app_assoc; auto.
Qed.

Lemma settle_rejected p s id m :
  pending id s = true ->
  let s' := step p s (Settle id (Rejected m)) in
  wire s' = wire s ++ [Wrote (EvError m); Ended] /\
  stopped s' = true /\ interval s' = None /\ fetches s' = fetches s /\
  in_flight s' = List.remove Nat.eq_dec id (in_flight s).
Proof.
  unfold pending. intros Hin. simpl. unfold on_settle. rewrite Hin.
  destruct p; simpl; rewrite <- !app_assoc; auto.
Qed.

Lemma remove_only id : List.remove Nat.eq_dec id [id] = [].
Proof. simpl. destruct (Nat.eq_dec id id); [reflexivity|contradiction]. Qed.

Lemma pending_only id s : in_flight s = [id] -> pending id s = true.
Proof.
  unfold pending. intros ->. apply bool_decide_eq_true. apply list_elem_of_here.
Qed.

Lemma step_cleared_budget p s i :
  interval s = None ->
  (length (written (wire (step p s i))) + 2 * length (in_flight (step p s i))
   <= length (written (wire s)) + 2 * length (in_flight s))%nat.
Proof.
  intros Hi. destruct i as [|id r|]; simpl.
  - unfold on_tick. rewrite Hi. lia.
  - unfold on_settle. case_bool_decide as Hin; [|lia].
    assert (Hlt : (length (List.remove Nat.eq_dec id (in_flight s)) < length (in_flight s))%nat).
    { apply remove_length_lt. apply list_elem_of_In. exact Hin. }
    destruct r as [d|m].
    + destruct d as [|st txt].
      * destruct p; simpl; rewrite !written_app, !List.length_app; simpl; lia.
      * destruct (is_terminal p st); [destruct p|]; simpl;
          rewrite !written_app, !List.length_app; simpl; lia.
    + destruct p; simpl; rewrite !written_app, !List.length_app; simpl; lia.
  - rewrite written_app. simpl. rewrite app_nil_r. lia.
Qed.

Lemma run_cleared_budget p s tr :
  interval s = None ->
  (length (written (wire (run p s tr))) + 2 * length (in_flight (run p s tr))
   <= length (written (wire s)) + 2 * length (in_flight s))%nat.
Proof.
  revert s. induction tr as [|i tr IH]; intros s Hi; [simpl; lia|].
  rewrite run_cons. destruct (step_cleared p s i Hi) as (H1 & _ & _).
  specialize (IH _ H1). pose proof (step_cleared_budget p s i Hi). lia.
Qed.

Lemma tick_keeps_stopped s : stopped (on_tick s) = stopped s.
Proof.
  unfold on_tick. destruct (interval s); [|reflexivity]. simpl.
  destruct (stopped s) eqn:E; simpl; auto.
Qed.

Lemma ticks_repeat n : ticks (repeat Tick n) = n.
Proof. unfold ticks. induction n; simpl; auto. Qed.

Lemma only_ticks_never_stop p t0 n :
  stopped (run p (subscribe t0) (repeat Tick n)) = false.
Proof.
  induction n as [|n IH]; [reflexivity|].
  cbn [repeat]. rewrite repeat_cons, run_snoc. simpl.
  rewrite tick_keeps_stopped. exact IH.
Qed.

Lemma prompt_single_flight p s tr :
  single_flight s -> prompt p s tr = true -> single_flight (run p s tr).
Proof.
  unfold single_flight. revert s.
  induction tr as [|i tr IH]; intros s Hs Hp; [exact Hs|].
  simpl in Hp. apply andb_prop in Hp. destruct Hp as [Hi Hp].
  rewrite run_cons. apply IH; [|exact Hp].
  destruct i as [|id r|]; simpl.
  - destruct (in_flight s) eqn:Hf; [|discriminate].
    unfold on_tick. destruct (interval s); [|rewrite Hf; simpl; lia].
    simpl. destruct (stopped s); simpl; rewrite Hf; simpl; lia.
  - unfold on_settle. case_bool_decide; [|exact Hs].
    assert (Hlen : (length (List.remove Nat.eq_dec id (in_flight s)) <= length (in_flight s))%nat)
      by apply remove_length_le.
    destruct r as [d|m].
    + destruct d as [|st txt]; [destruct p; simpl; lia|].
      destruct (is_terminal p st); [destruct p|]; simpl; lia.
    + destruct p; simpl; lia.
  - exact Hs.
Qed.

(** *** The claims *)

(** With nothing else in flight, a terminal status leaves the session quiet:
    the timer is cleared, nothing is in flight, and the log has grown by the
    data frame, the [finished] frame and [res.end()]. *)
Lemma settle_last_terminal p s id d :
  in_flight s = [id] -> terminal p d = true ->
  let s' := step p s (Settle id (Resolved d)) in
  wire s' = wire s ++ [Wrote (EvMessage d); Wrote (EvFinished d); Ended] /\
  stopped s' = true /\ interval s' = None /\ in_flight s' = [] /\
  forall tr,
    calls (wire (run p s' tr)) = calls (wire s') /\
    written (wire (run p s' tr)) = written (wire s') /\
    fetches (run p s' tr) = fetches s.
Proof.
  intros Hone Hterm.
  pose proof (pending_only id s Hone) as Hpen.
  destruct (settle_terminal p s id d Hpen Hterm) as (Hw & Hst & Hi & Hf & Hin).
  rewrite Hone, remove_only in Hin.
  cbv zeta. repeat split; try assumption.
  - apply run_quiet; assumption.
  - apply run_quiet; assumption.
  - rewrite <- Hf. apply run_cleared. exact Hi.
Qed.

(** Likewise for a failure with nothing else in flight. *)
Lemma settle_last_rejected p s id m :
  in_flight s = [id] ->
  let s' := step p s (Settle id (Rejected m)) in
  wire s' = wire s ++ [Wrote (EvError m); Ended] /\
  stopped s' = true /\ interval s' = None /\ in_flight s' = [] /\
  forall tr,
    calls (wire (run p s' tr)) = calls (wire s') /\
    written (wire (run p s' tr)) = written (wire s') /\
    interval (run p s' tr) = None /\
    fetches (run p s' tr) = fetches s.
Proof.
  intros Hone.
  pose proof (pending_only id s Hone) as Hpen.
  destruct (settle_rejected p s id m Hpen) as (Hw & Hst & Hi & Hf & Hin).
  rewrite Hone, remove_only in Hin.
  cbv zeta. repeat split; try assumption.
  - apply run_quiet; assumption.
  - apply run_quiet; assumption.
  - apply run_cleared. exact Hi.
  - rewrite <- Hf. apply run_cleared. exact Hi.
Qed.

(** C1, as the code has it.  In every session, when a poll returns a status of
    the provider's terminal set while the response has not been ended and no
    other fetch of the session is in flight, the handler writes the data frame
    and then a [finished] frame carrying the same envelope and ends the
    response.  No [finished] frame was written before, and from then on no
    frame is written, no call at all is made on the response and no fetch is
    started, whatever happens: the session has exactly one [finished] frame. *)
Theorem terminal_status_finishes p t0 tr0 id d :
  ended (wire (run p (subscribe t0) tr0)) = false ->
  in_flight (run p (subscribe t0) tr0) = [id] ->
  terminal p d = true ->
  let s := run p (subscribe t0) tr0 in
  let s' := step p s (Settle id (Resolved d)) in
  finishes_once p s id d /\
  event_name (EvFinished d) = Some "finished" /\
  count_finished (written (wire s)) = 0%nat /\
  stopped s' = true /\ interval s' = None /\
  forall tr,
    calls (wire (run p s' tr))
      = calls (wire s) ++ [Wrote (EvMessage d); Wrote (EvFinished d); Ended] /\
    count_finished (written (wire (run p s' tr))) = 1%nat /\
    fetches (run p s' tr) = fetches s.
Proof.
  intros Hend Hone Hterm s s'.
  destruct (settle_last_terminal p s id d Hone Hterm) as (Hw & Hst & Hi & _ & Hq).
  fold s' in Hw, Hst, Hi, Hq.
  assert (Hzero : count_finished (written (wire s)) = 0%nat)
    by exact (no_finished_before_end _ (run_finished_then_ended p t0 tr0) Hend).
  split; [split; [exact Hw|intros tr; apply Hq]|].
  split; [reflexivity|]. split; [exact Hzero|].
  split; [exact Hst|]. split; [exact Hi|].
  intros tr. destruct (Hq tr) as (Hc & Hwr & Hf). split; [|split].
  - rewrite Hc, Hw, calls_app. reflexivity.
  - rewrite Hwr, Hw, written_app, count_finished_app, Hzero. reflexivity.
  - exact Hf.
Qed.

Lemma terminal_status_finishes_witness :
  finishes_once Meshy (run Meshy (subscribe 0) [Tick]) 0 (status_only "SUCCEEDED") /\
  count_finished (written (wire (run Meshy (subscribe 0)
    [Tick; Settle 0%nat (Resolved (status_only "SUCCEEDED")); Tick; Close]))) = 1%nat /\
  fetches (run Meshy (subscribe 0)
             [Tick; Settle 0%nat (Resolved (status_only "SUCCEEDED")); Tick; Close])
    = [2000].
Proof.
  destruct (terminal_status_finishes Meshy 0 [Tick] 0%nat (status_only "SUCCEEDED"))
    as (H1 & _ & _ & _ & _ & H2); [reflexivity|reflexivity|reflexivity|].
  split; [exact H1|]. destruct (H2 [Tick; Close]) as (_ & H3 & H4).
  split; [exact H3|exact H4].
Defined.

(** C1 as stated fails when a second fetch is in flight: its completion writes
    again, after [res.end()]. *)
Lemma overlapping_fetch_writes_after_finished :
  in_flight (run Meshy (subscribe 0) [Tick; Tick]) = [0%nat; 1%nat] /\
  terminal Meshy (status_only "SUCCEEDED") = true /\
  wire (run Meshy (subscribe 0)
          [Tick; Tick; Settle 0%nat (Resolved (status_only "SUCCEEDED"));
           Settle 1%nat (Resolved (status_only "SUCCEEDED"))])
    = [Wrote (EvMessage (status_only "SUCCEEDED"));
       Wrote (EvFinished (status_only "SUCCEEDED")); Ended;
       Wrote (EvMessage (status_only "SUCCEEDED"));
       Wrote (EvFinished (status_only "SUCCEEDED")); Ended] /\
  ~ finishes_once Meshy (run Meshy (subscribe 0) [Tick; Tick]) 0 (status_only "SUCCEEDED").
Proof.
  repeat split.
  intros [_ H]. specialize (H [Settle 1%nat (Resolved (status_only "SUCCEEDED"))]).
  vm_compute in H. discriminate.
Qed.

(** C2, as the code has it.  In every session, when a fetch fails with message
    [m] while the response has not been ended and no other fetch of the
    session is in flight, the [catch] block writes an [error] frame carrying
    [m], clears the timer, sets [stopped] and ends the response.  No [error]
    frame was written before, and from then on no call is made on the
    response and no fetch is started, whatever happens: the session has
    exactly one [error] frame and the failed fetch is not tried again. *)
Theorem failed_fetch_ends_session p t0 tr0 id m :
  ended (wire (run p (subscribe t0) tr0)) = false ->
  in_flight (run p (subscribe t0) tr0) = [id] ->
  let s := run p (subscribe t0) tr0 in
  let s' := step p s (Settle id (Rejected m)) in
  fails_once p s id m /\
  event_name (EvError m) = Some "error" /\
  count_errors (written (wire s)) = 0%nat /\
  stopped s' = true /\ interval s' = None /\
  forall tr,
    calls (wire (run p s' tr)) = calls (wire s) ++ [Wrote (EvError m); Ended] /\
    count_errors (written (wire (run p s' tr))) = 1%nat /\
    interval (run p s' tr) = None /\
    fetches (run p s' tr) = fetches s.
Proof.
  intros Hend Hone s s'.
  destruct (settle_last_rejected p s id m Hone) as (Hw & Hst & Hi & _ & Hq).
  fold s' in Hw, Hst, Hi, Hq.
  assert (Hzero : count_errors (written (wire s)) = 0%nat)
    by exact (no_error_before_end _ (run_error_then_ended p t0 tr0) Hend).
  split; [split; [exact Hw|intros tr; apply Hq]|].
  split; [reflexivity|]. split; [exact Hzero|].
  split; [exact Hst|]. split; [exact Hi|].
  intros tr. destruct (Hq tr) as (Hc & Hwr & Hiv & Hf). split; [|split; [|split]].
  - rewrite Hc, Hw, calls_app. reflexivity.
  - rewrite Hwr, Hw, written_app, count_errors_app, Hzero. reflexivity.
  - exact Hiv.
  - exact Hf.
Qed.

Lemma failed_fetch_ends_session_witness :
  wire (run Fashn (subscribe 0) [Tick; Settle 0%nat (Rejected "timeout")])
    = [Wrote (EvError "timeout"); Ended] /\
  count_errors (written (wire (run Fashn (subscribe 0)
    [Tick; Settle 0%nat (Rejected "timeout"); Tick; Settle 0%nat (Rejected "timeout")])))
    = 1%nat /\
  fetches (run Fashn (subscribe 0)
             [Tick; Settle 0%nat (Rejected "timeout"); Tick; Settle 0%nat (Rejected "timeout")])
    = [2000].
Proof.
  destruct (failed_fetch_ends_session Fashn 0 [Tick] 0%nat "timeout")
    as ([H1 _] & _ & _ & _ & _ & H2); [reflexivity|reflexivity|].
  split; [exact H1|].
  destruct (H2 [Tick; Settle 0%nat (Rejected "timeout")]) as (_ & H3 & _ & H4).
  split; [exact H3|exact H4].
Defined.

(** C2 as stated fails when a second fetch is in flight: when it fails too,
    a second [error] frame is written, after [res.end()]. *)
Lemma overlapping_failures_write_two_errors :
  in_flight (run Meshy (subscribe 0) [Tick; Tick]) = [0%nat; 1%nat] /\
  wire (run Meshy (subscribe 0)
          [Tick; Tick; Settle 0%nat (Rejected "timeout"); Settle 1%nat (Rejected "timeout")])
    = [Wrote (EvError "timeout"); Ended; Wrote (EvError "timeout"); Ended] /\
  count_errors (written (wire (run Meshy (subscribe 0)
    [Tick; Tick; Settle 0%nat (Rejected "timeout"); Settle 1%nat (Rejected "timeout")])))
    = 2%nat /\
  ~ fails_once Meshy (run Meshy (subscribe 0) [Tick; Tick]) 0 "timeout".
Proof.
  repeat split.
  intros [_ H]. specialize (H [Settle 1%nat (Rejected "timeout")]).
  vm_compute in H. discriminate.
Qed.

(** C3, as the code has it.  After the subscriber disconnects no fetch is
    started any more, and frames are written afterwards only on behalf of the
    fetches that were in flight at the moment of the disconnect, at most two
    per fetch; when none was in flight the handler makes no further call on
    the response. *)
Theorem close_stops_polling p s tr :
  let s' := step p s Close in
  fetches (run p s' tr) = fetches s /\
  (length (written (wire (run p s' tr)))
   <= length (written (wire s)) + 2 * length (in_flight s))%nat /\
  (in_flight s = [] -> calls (wire (run p s' tr)) = calls (wire s)).
Proof.
  cbv zeta. simpl.
  assert (Hi : interval (on_close s) = None) by reflexivity.
  split; [|split].
  - apply (run_cleared p (on_close s) tr Hi).
  - pose proof (run_cleared_budget p (on_close s) tr Hi) as H.
    simpl in H. rewrite written_app in H. simpl in H. rewrite app_nil_r in H. lia.
  - intros Hf. destruct (run_quiet p (on_close s) tr Hi Hf) as [Hc _].
    rewrite Hc. simpl. rewrite calls_app. simpl. apply app_nil_r.
Qed.

Lemma close_stops_polling_witness :
  calls (wire (run Meshy (subscribe 0)
                 [Tick; Settle 0%nat (Resolved (status_only "PENDING")); Close; Tick; Tick]))
    = [Wrote (EvMessage (status_only "PENDING"))].
Proof.
  destruct (close_stops_polling Meshy
              (run Meshy (subscribe 0) [Tick; Settle 0%nat (Resolved (status_only "PENDING"))])
              [Tick; Tick]) as (_ & _ & H).
  apply H. reflexivity.
Defined.

(** C3 as stated fails for a fetch in flight at the disconnect: its result is
    written to the response the client has left. *)
Lemma in_flight_result_written_after_close :
  in_flight (run Fashn (subscribe 0) [Tick]) = [0%nat] /\
  wire (run Fashn (subscribe 0)
          [Tick; Close; Settle 0%nat (Resolved (status_only "processing"))])
    = [Disconnected; Wrote (EvMessage (status_only "processing"))] /\
  ~ silent_after_close Fashn (run Fashn (subscribe 0) [Tick]).
Proof.
  split; [reflexivity|]. split; [reflexivity|].
  intros H. destruct (H [Settle 0%nat (Resolved (status_only "processing"))]) as [_ H'].
  vm_compute in H'. discriminate.
Qed.

(** C4, as the code has it.  In a session in which every fetch is settled
    before the timer fires again, at most one fetch is outstanding at any
    time.  The handlers do not wait for an outstanding fetch: whenever the
    timer of a session that is not stopped fires, a new fetch is sent, whatever
    is in flight. *)
Theorem single_flight_when_prompt p t0 tr :
  (prompt p (subscribe t0) tr = true -> single_flight (run p (subscribe t0) tr)) /\
  (forall s due, stopped s = false -> interval s = Some due ->
     in_flight (step p s Tick) = in_flight s ++ [length (fetches s)] /\
     fetches (step p s Tick) = fetches s ++ [due]).
Proof.
  split.
  - apply prompt_single_flight. unfold single_flight. simpl. lia.
  - intros s due Hs Hi. simpl. unfold on_tick. rewrite Hi. simpl. rewrite Hs.
    split; reflexivity.
Qed.

Lemma single_flight_when_prompt_witness :
  single_flight (run Meshy (subscribe 0)
    [Tick; Settle 0%nat (Resolved (status_only "PENDING")); Tick]).
Proof.
  apply (proj1 (single_flight_when_prompt Meshy 0
    [Tick; Settle 0%nat (Resolved (status_only "PENDING")); Tick])).
  reflexivity.
Defined.

(** C4 as stated fails: the timer fires again 2000 ms after a fetch was sent,
    and a second fetch goes out while the first is still outstanding. *)
Lemma second_tick_overlaps :
  in_flight (run Meshy (subscribe 0) [Tick; Tick]) = [0%nat; 1%nat] /\
  fetches (run Meshy (subscribe 0) [Tick; Tick]) = [2000; 4000] /\
  ~ single_flight (run Meshy (subscribe 0) [Tick; Tick]).
Proof.
  split; [reflexivity|]. split; [reflexivity|].
  unfold single_flight. simpl. lia.
Qed.

(** C5, as the code has it.  Subscribing sends no request: it arms the timer,
    whose first firing is 2000 ms after the subscription.  The fetches of a
    session are sent at [t0 + 2000], [t0 + 4000], ..., one at each firing of
    the timer for as long as the session is not stopped, and none once it is
    stopped. *)
Theorem polls_one_period_after_subscription p t0 :
  fetches (subscribe t0) = [] /\
  interval (subscribe t0) = Some (t0 + 2000) /\
  (forall n, fetches (run p (subscribe t0) (repeat Tick n)) = schedule (t0 + 2000) n) /\
  forall tr, let s := run p (subscribe t0) tr in
    fetches s = schedule (t0 + 2000) (length (fetches s)) /\
    (stopped s = false ->
       length (fetches s) = ticks tr /\
       interval s = Some (t0 + 2000 * (Z.of_nat (ticks tr) + 1))) /\
    (stopped s = true -> forall tr', fetches (run p s tr') = fetches s).
Proof.
  split; [reflexivity|]. split; [reflexivity|].
  assert (Hall : forall tr, let s := run p (subscribe t0) tr in
    fetches s = schedule (t0 + 2000) (length (fetches s)) /\
    (stopped s = false ->
       length (fetches s) = ticks tr /\
       interval s = Some (t0 + 2000 * (Z.of_nat (ticks tr) + 1))) /\
    (stopped s = true -> forall tr', fetches (run p s tr') = fetches s)).
  { intros tr s. destruct (run_on_schedule p t0 tr) as [Hf Hs]. fold s in Hf, Hs.
    split; [exact Hf|]. split.
    - intros Hst. rewrite Hst in Hs. destruct Hs as [Hi Hl]. split; [exact Hl|exact Hi].
    - intros Hst tr'. rewrite Hst in Hs. destruct Hs as [Hi _].
      apply run_cleared. exact Hi. }
  split; [|exact Hall].
  intros n. destruct (Hall (repeat Tick n)) as (Hf & Hl & _).
  destruct (Hl (only_ticks_never_stop p t0 n)) as [Hlen _].
  rewrite ticks_repeat in Hlen. rewrite Hlen in Hf. exact Hf.
Qed.

(** C5 as stated fails: no request is sent at the time of the subscription,
    the first one goes out a full period later. *)
Lemma first_poll_is_not_immediate :
  fetches (subscribe 0) = [] /\
  fetches (run Meshy (subscribe 0) [Tick; Tick; Tick]) = [2000; 4000; 6000] /\
  ~ polls_from_subscription Meshy 0 [Tick; Tick; Tick].
Proof.
  split; [reflexivity|]. split; [reflexivity|].
  unfold polls_from_subscription. vm_compute. discriminate.
Qed.

End SseFacts.

(** ** [StringToNumber] on sample texts *)

Module JsFacts.
Import Js.

Example number_of_decimal : StringToNumber "3000" = Fin 3000.
Proof. vm_compute. reflexivity. Qed.

Example number_of_padded : StringToNumber " 42 " = Fin 42.
Proof. vm_compute. reflexivity. Qed.

(** White space outside ASCII is stripped as well: U+00A0 before and U+2028
    after the digit. *)
Example number_of_unicode_padded :
  StringToNumber (String (ascii_of_nat 194) (String (ascii_of_nat 160)
    (String "3" (String (ascii_of_nat 226) (String (ascii_of_nat 128)
      (String (ascii_of_nat 168) EmptyString)))))) = Fin 3.
Proof. vm_compute. reflexivity. Qed.

Example number_of_fraction : StringToNumber "2.5" = Fin (5 # 2).
Proof. vm_compute. reflexivity. Qed.

Example number_of_exponent : StringToNumber "1e2" = Fin 100.
Proof. vm_compute. reflexivity. Qed.

Example number_of_hex : StringToNumber "0x1F" = Fin 31.
Proof. vm_compute. reflexivity. Qed.

Example number_of_empty : StringToNumber EmptyString = Fin 0.
Proof. vm_compute. reflexivity. Qed.

Example number_of_negative_zero : StringToNumber "-0" = NegZero.
Proof. vm_compute. reflexivity. Qed.

Example number_of_infinity : StringToNumber "-Infinity" = NegInf.
Proof. vm_compute. reflexivity. Qed.

Example number_of_unit_suffix : StringToNumber "12px" = NaN.
Proof. vm_compute. reflexivity. Qed.

Example number_of_word : StringToNumber "many" = NaN.
Proof. vm_compute. reflexivity. Qed.

(** Rounding to binary64: a tie goes to the even neighbour, a tenth is not
    exact, a long fraction collapses, large literals overflow and tiny ones
    underflow. *)
Example number_of_tie : StringToNumber "9007199254740993" = Fin 9007199254740992.
Proof. vm_compute. reflexivity. Qed.

Example number_of_tenth :
  StringToNumber "0.1" = Fin (3602879701896397 # 36028797018963968).
Proof. vm_compute. reflexivity. Qed.

Example number_of_long_fraction : StringToNumber "2.00000000000000000001" = Fin 2.
Proof. vm_compute. reflexivity. Qed.

Example number_of_overflow : StringToNumber "1e400" = PosInf.
Proof. vm_compute. reflexivity. Qed.

Example number_of_underflow : StringToNumber "-1e-400" = NegZero.
Proof. vm_compute. reflexivity. Qed.

(** [Number] of arrays and objects. *)
Example number_of_singleton_array : Number (VArray [VStr "5"]) = Normal (Fin 5).
Proof. vm_compute. reflexivity. Qed.

Example number_of_pair : Number (VArray [VNum (Fin 1); VNum (Fin 2)]) = Normal NaN.
Proof. vm_compute. reflexivity. Qed.

Example number_of_object : Number (VObject true ∅) = Normal NaN.
Proof. vm_compute. reflexivity. Qed.

Example number_of_bare_object : Number (VObject false ∅) = Throw primitive_error.
Proof. vm_compute. reflexivity. Qed.

End JsFacts.

(** ** The submission handlers *)

Module SubmitFacts.
Import Js Submit.

(** Membership in a list of literals. *)
Ltac listed :=
  repeat (first [apply list_elem_of_here | apply list_elem_of_further]).

Ltac not_listed :=
  let H := fresh "Hin" in
  intros H;
  repeat (apply elem_of_cons in H; destruct H as [H|H]; [discriminate H|]);
  inversion H.

(** Unfolds the sequencing of completions. *)
Ltac sequence := unfold mbind, completion_bind, mret, completion_ret in *.

(** *** [Number] *)

Lemma Number_normal v x : Number v = Normal x -> unconvertible v = false /\ x = ToNumber v.
Proof. unfold Number. destruct (unconvertible v); [discriminate|]. intros [= <-]. auto. Qed.

Lemma Number_throw v m : Number v = Throw m -> unconvertible v = true /\ m = primitive_error.
Proof. unfold Number. destruct (unconvertible v); [|discriminate]. intros [= <-]. auto. Qed.

Lemma Number_convertible v : unconvertible v = false -> Number v = Normal (ToNumber v).
Proof. unfold Number. intros ->. reflexivity. Qed.

Lemma Number_unconvertible v : unconvertible v = true -> Number v = Throw primitive_error.
Proof. unfold Number. intros ->. reflexivity. Qed.

(** *** The copying loop *)

Lemma get_Some (m : gmap string value) k v : m !! k = Some v -> get m k = v.
Proof. unfold get. intros ->. reflexivity. Qed.

Lemma get_None (m : gmap string value) k : m !! k = None -> get m k = VUndefined.
Proof. unfold get. intros ->. reflexivity. Qed.

Lemma coerce_boolean k v :
  k ∈ booleanFields -> coerce k v = Normal (VBool (is_string v "true" || is_bool v true)).
Proof. intros H. unfold coerce. rewrite bool_decide_eq_true_2 by exact H. reflexivity. Qed.

Lemma coerce_number k v :
  k ∈ numberFields -> coerce k v = x ← Number v; mret (VNum x).
Proof.
  intros H. apply list_elem_of_singleton in H. subst k. reflexivity.
Qed.

Lemma coerce_other k v :
  k ∉ booleanFields -> k ∉ numberFields -> coerce k v = Normal v.
Proof.
  intros Hb Hn. unfold coerce.
  rewrite bool_decide_eq_false_2 by exact Hb.
  rewrite bool_decide_eq_false_2 by exact Hn. reflexivity.
Qed.

Lemma coerce_proto v : coerce "__proto__" v = Normal v.
Proof. apply coerce_other; not_listed. Qed.

(** The loop throws only in [Number], on a field of [numberFields]. *)
Lemma coerce_throw k v m :
  coerce k v = Throw m ->
  k ∈ numberFields /\ unconvertible v = true /\ m = primitive_error.
Proof.
  unfold coerce. case_bool_decide as Hb; [discriminate|].
  case_bool_decide as Hn; [|discriminate].
  sequence. destruct (Number v) as [x|m'] eqn:E; [discriminate|].
  intros [= <-]. split; [exact Hn|]. apply Number_throw. exact E.
Qed.

(** What the accessor leaves as the prototype of an object that inherited
    from [Object.prototype]. *)
Lemma set_prototype_spec v o :
  own (set_prototype v o) = own o /\
  (proto o = ObjectPrototype ->
   proto (set_prototype v o) =
     match v with
     | VNull => NoPrototype
     | VArray _ | VObject _ _ => Parent v
     | _ => ObjectPrototype
     end).
Proof. destruct v; simpl; auto. Qed.

Lemma assign_other k v o :
  k <> "__proto__" -> assign k v o = mkObject (<[k := v]> (own o)) (proto o).
Proof.
  intros Hk. unfold assign. rewrite bool_decide_eq_false_2 by exact Hk. reflexivity.
Qed.

Lemma assign_proto v o :
  own o !! "__proto__" = None -> proto o = ObjectPrototype ->
  assign "__proto__" v o = set_prototype v o.
Proof.
  intros Ho Hp. unfold assign, reaches_setter. rewrite Ho, Hp. reflexivity.
Qed.

Lemma copy_fields_spec b o0 :
  own o0 !! "__proto__" = None -> proto o0 = ObjectPrototype ->
  match copy_fields b o0 with
  | Throw m =>
      m = primitive_error /\
      exists k v, b !! k = Some v /\ k ∈ numberFields /\ unconvertible v = true
  | Normal o =>
      (forall k v, b !! k = Some v ->
         exists x, coerce k v = Normal x /\ (k <> "__proto__" -> own o !! k = Some x)) /\
      (forall k, b !! k = None -> own o !! k = own o0 !! k) /\
      own o !! "__proto__" = None /\
      proto o = prototype_from b
  end.
Proof.
  intros Ho Hp. unfold copy_fields.
  apply (map_fold_weak_ind (fun (r : completion object) (m : gmap string value) =>
    match r with
    | Throw msg =>
        msg = primitive_error /\
        exists k v, m !! k = Some v /\ k ∈ numberFields /\ unconvertible v = true
    | Normal o =>
        (forall k v, m !! k = Some v ->
           exists x, coerce k v = Normal x /\ (k <> "__proto__" -> own o !! k = Some x)) /\
        (forall k, m !! k = None -> own o !! k = own o0 !! k) /\
        own o !! "__proto__" = None /\
        proto o = prototype_from m
    end)).
  - cbn. split; [intros k v Hk; rewrite lookup_empty in Hk; discriminate|].
    split; [reflexivity|]. split; [exact Ho|]. rewrite Hp. reflexivity.
  - intros i x m r Hi IH. destruct r as [o|msg]; cbn.
    + destruct IH as (H1 & H2 & H3 & H4).
      destruct (coerce i x) as [y|msg] eqn:Hc; cbn.
      * destruct (decide (i = "__proto__")) as [->|Hne].
        -- rewrite coerce_proto in Hc. injection Hc as <-.
           assert (Hobj : proto o = ObjectPrototype).
           { rewrite H4. unfold prototype_from. rewrite Hi. reflexivity. }
           rewrite assign_proto by assumption.
           destruct (set_prototype_spec x o) as [E1 E2]. rewrite E1, (E2 Hobj).
           split; [|split; [|split]].
           ++ intros k v Hk. destruct (decide (k = "__proto__")) as [->|Hk'].
              ** rewrite lookup_insert_eq in Hk. injection Hk as <-.
                 exists x. split; [apply coerce_proto|]. intros Hk. contradiction.
              ** rewrite lookup_insert_ne in Hk by congruence.
                 destruct (H1 k v Hk) as [x' [Hx Hown]]. exists x'. auto.
           ++ intros k Hk. apply H2. destruct (decide (k = "__proto__")) as [->|Hk'].
              ** rewrite lookup_insert_eq in Hk. discriminate.
              ** rewrite lookup_insert_ne in Hk by congruence. exact Hk.
           ++ exact H3.
           ++ unfold prototype_from. rewrite lookup_insert_eq. destruct x; reflexivity.
        -- rewrite assign_other by exact Hne. cbn.
           split; [|split; [|split]].
           ++ intros k v Hk. destruct (decide (k = i)) as [->|Hki].
              ** rewrite lookup_insert_eq in Hk. injection Hk as <-.
                 exists y. split; [exact Hc|]. intros _. apply lookup_insert_eq.
              ** rewrite lookup_insert_ne in Hk by congruence.
                 destruct (H1 k v Hk) as [x' [Hx Hown]]. exists x'. split; [exact Hx|].
                 intros Hk'. rewrite lookup_insert_ne by congruence. auto.
           ++ intros k Hk. destruct (decide (k = i)) as [->|Hki].
              ** rewrite lookup_insert_eq in Hk. discriminate.
              ** rewrite lookup_insert_ne in Hk by congruence.
                 rewrite lookup_insert_ne by congruence. apply H2. exact Hk.
           ++ rewrite lookup_insert_ne by exact Hne. exact H3.
           ++ rewrite H4. unfold prototype_from. rewrite lookup_insert_ne by exact Hne.
              reflexivity.
      * destruct (coerce_throw _ _ _ Hc) as (Hn & Hu & ->). split; [reflexivity|].
        exists i, x. rewrite lookup_insert_eq. auto.
    + destruct IH as [-> (k & v & Hk & Hn & Hu)]. split; [reflexivity|].
      exists k, v. split; [|auto]. rewrite lookup_insert_ne; [exact Hk|].
      intros <-. congruence.
Qed.

Lemma default_texture_own o :
  own (default_texture o) =
  match read o "should_texture" with
  | VUndefined => <["should_texture" := VBool true]> (own o)
  | _ => own o
  end.
Proof.
  unfold default_texture. destruct (read o "should_texture"); reflexivity.
Qed.

(** What [image_to_3d] posts. *)
Lemma image_to_3d_posts req b payload :
  body req = Some b -> image_to_3d req = Post meshy_url payload ->
  exists url o,
    image_source req = Some url /\
    copy_fields b (assign "image_url" url empty_object) = Normal o /\
    payload = own (default_texture o).
Proof.
  unfold image_to_3d. intros Hb. rewrite Hb.
  destruct (image_source req) as [url|]; [|discriminate].
  destruct (copy_fields b _) as [o|m] eqn:Hc; [|discriminate].
  intros [= <-]. exists url, o. auto.
Qed.

(** The payload posted to Meshy, key by key. *)
Lemma posted_payload req b payload :
  body req = Some b -> image_to_3d req = Post meshy_url payload ->
  exists url,
    image_source req = Some url /\
    payload !! "__proto__" = None /\
    (forall k v, b !! k = Some v -> k <> "__proto__" ->
       exists x, coerce k v = Normal x /\ payload !! k = Some x) /\
    (b !! "image_url" = None -> payload !! "image_url" = Some url) /\
    (b !! "should_texture" = None ->
       payload !! "should_texture" =
         match inherited b "should_texture" with
         | VUndefined => Some (VBool true)
         | _ => None
         end) /\
    (forall k, b !! k = None -> k <> "image_url" -> k <> "should_texture" ->
       payload !! k = None).
Proof.
  intros Hb Hp. destruct (image_to_3d_posts req b payload Hb Hp) as (url & o & Hs & Hc & ->).
  exists url. split; [exact Hs|].
  pose proof (copy_fields_spec b (assign "image_url" url empty_object)) as H.
  rewrite Hc in H. rewrite assign_other in H by discriminate.
  unfold empty_object in H. cbn [own proto] in H.
  destruct H as (H1 & H2 & H3 & H4); [reflexivity|reflexivity|].
  rewrite default_texture_own.
  assert (Hread : read o "should_texture" =
            match b !! "should_texture" with
            | Some v => VBool (is_string v "true" || is_bool v true)
            | None => inherited b "should_texture"
            end).
  { unfold read. destruct (b !! "should_texture") as [v|] eqn:Ht.
    - destruct (H1 _ _ Ht) as (x & Hx & Hown). rewrite Hown by discriminate.
      rewrite coerce_boolean in Hx by listed. congruence.
    - rewrite (H2 _ Ht). rewrite lookup_insert_ne by discriminate. rewrite lookup_empty.
      rewrite H4. unfold inherited. reflexivity. }
  assert (Hkeep : forall k, k <> "should_texture" ->
            match read o "should_texture" with
            | VUndefined => <["should_texture" := VBool true]> (own o)
            | _ => own o
            end !! k = own o !! k).
  { intros k Hk. destruct (read o "should_texture"); try reflexivity.
    apply lookup_insert_ne. congruence. }
  split; [rewrite Hkeep by discriminate; exact H3|].
  split; [|split; [|split]].
  - intros k v Hk Hne. destruct (H1 k v Hk) as (x & Hx & Hown). exists x.
    split; [exact Hx|]. destruct (decide (k = "should_texture")) as [->|Hst].
    + rewrite Hread, Hk. rewrite (Hown Hne). reflexivity.
    + rewrite Hkeep by exact Hst. auto.
  - intros Hi. rewrite Hkeep by discriminate. rewrite (H2 _ Hi). apply lookup_insert_eq.
  - intros Ht. rewrite Hread, Ht.
    assert (Ho : own o !! "should_texture" = None).
    { rewrite (H2 _ Ht). rewrite lookup_insert_ne by discriminate. apply lookup_empty. }
    destruct (inherited b "should_texture"); try exact Ho. apply lookup_insert_eq.
  - intros k Hk Hi Ht. rewrite Hkeep by exact Ht. rewrite (H2 _ Hk).
    rewrite lookup_insert_ne by congruence. apply lookup_empty.
Qed.

(** A payload is posted exactly when an image source is found, the body is
    there and [Number] converts its number fields. *)
Lemma image_to_3d_outcome req b url :
  body req = Some b -> image_source req = Some url ->
  (unconvertible (get b "target_polycount") = false ->
     exists payload, image_to_3d req = Post meshy_url payload) /\
  (unconvertible (get b "target_polycount") = true ->
     image_to_3d req = Threw primitive_error).
Proof.
  intros Hb Hs. unfold image_to_3d. rewrite Hs, Hb.
  pose proof (copy_fields_spec b (assign "image_url" url empty_object)) as H.
  rewrite assign_other in H by discriminate.
  destruct (copy_fields b _) as [o|m].
  - destruct H as (H1 & _); [reflexivity|reflexivity|]. split; [eauto|].
    intros Hu. exfalso.
    destruct (b !! "target_polycount") as [v|] eqn:Hv;
      [rewrite (get_Some _ _ _ Hv) in Hu|rewrite (get_None _ _ Hv) in Hu; discriminate].
    destruct (H1 _ _ Hv) as (x & Hx & _).
    rewrite coerce_number in Hx by listed.
    rewrite (Number_unconvertible _ Hu) in Hx. discriminate.
  - destruct H as (-> & k & v & Hk & Hn & Hu); [reflexivity|reflexivity|].
    apply list_elem_of_singleton in Hn. subst k.
    rewrite (get_Some _ _ _ Hk). split; [congruence|reflexivity].
Qed.

(** The string and native encodings of a boolean are read as that boolean by
    both handlers. *)
Lemma boolean_input_strict v x :
  boolean_input v = Some x -> (is_string v "true" || is_bool v true) = x.
Proof.
  destruct v as [| |b|n|s|l|i m]; simpl; try discriminate.
  - intros [= <-]. destruct b; reflexivity.
  - rewrite orb_false_r. case_bool_decide as Ht.
    + intros [= <-]. reflexivity.
    + case_bool_decide; [|discriminate]. intros [= <-]. reflexivity.
Qed.

Lemma boolean_input_bool_ v d x : boolean_input v = Some x -> bool_ v d = x.
Proof.
  unfold bool_. destruct v as [| |b|n|s|l|i m]; simpl; try discriminate.
  - intros [= <-]. destruct b; reflexivity.
  - rewrite !orb_false_r. case_bool_decide as Ht.
    + intros [= <-]. reflexivity.
    + case_bool_decide; [|discriminate]. intros [= <-]. reflexivity.
Qed.

(** *** The payload of [POST /fashn/tryon] *)

Ltac property :=
  unfold tryon_object; repeat (rewrite lookup_insert_ne by discriminate);
  apply lookup_insert_eq.

Lemma tryon_object_num_samples b seed samples :
  tryon_object b seed samples !! "num_samples" = Some (VNum samples).
Proof. property. Qed.

Lemma tryon_object_seed b seed samples :
  tryon_object b seed samples !! "seed" = Some (VNum seed).
Proof. property. Qed.

Lemma tryon_object_segmentation_free b seed samples :
  tryon_object b seed samples !! "segmentation_free"
    = Some (VBool (bool_ (get b "segmentation_free") true)).
Proof. property. Qed.

Lemma tryon_object_return_base64 b seed samples :
  tryon_object b seed samples !! "return_base64"
    = Some (VBool (bool_ (get b "return_base64") false)).
Proof. property. Qed.

Lemma tryon_object_unknown b seed samples k :
  k ∉ "model_name" :: tryon_params -> tryon_object b seed samples !! k = None.
Proof.
  intros Hk. unfold tryon_object, tryon_params in *.
  repeat (rewrite lookup_insert_ne;
          [|intros <-; apply Hk; repeat (first [apply list_elem_of_here | apply list_elem_of_further])]).
  apply lookup_empty.
Qed.

Lemma num_spec v x :
  num v = Normal x ->
  (v = VUndefined /\ x = None) \/
  (v <> VUndefined /\ exists n, Number v = Normal n /\ x = Some n).
Proof.
  destruct v as [| |b|y|s|l|i p]; unfold num; sequence; cbv beta iota;
    [intros [= <-]; left; auto|..];
    (match goal with
     | |- context [Number ?w] => destruct (Number w) as [n|m] eqn:E
     end; [|discriminate]; intros [= <-]; right; split; [discriminate|eauto]).
Qed.

Lemma num_samples_spec v x :
  num_samples v = Normal x ->
  (v = VUndefined /\ x = Fin 1) \/
  (v <> VUndefined /\ exists n, Number v = Normal n /\ x = clamp n).
Proof.
  unfold num_samples. destruct (num v) as [o|m] eqn:E; cbn; [|discriminate].
  intros [= <-]. destruct (num_spec _ _ E) as [[-> ->]|(Hv & n & Hn & ->)].
  - left. split; reflexivity.
  - right. split; [exact Hv|]. exists n. split; [exact Hn|reflexivity].
Qed.

Lemma fashn_tryon_posts req payload :
  fashn_tryon req = Post fashn_url payload ->
  exists seed samples,
    num (get (tryon_body req) "seed") = Normal seed /\
    num_samples (get (tryon_body req) "num_samples") = Normal samples /\
    top payload = tryon_object (tryon_body req) (default (Fin 42) seed) samples.
Proof.
  unfold fashn_tryon, tryon_fields. destruct (person req); [|discriminate].
  destruct (garment req); [|discriminate].
  destruct (num (get (tryon_body req) "seed")) as [seed|m]; cbn; [|discriminate].
  destruct (num_samples (get (tryon_body req) "num_samples")) as [samples|m]; cbn;
    [|discriminate].
  intros [= <-]. exists seed, samples. auto.
Qed.

(** *** Clamping *)

Lemma Qle_bool_false_flip p q : Qle_bool p q = false -> Qle_bool q p = true.
Proof.
  intros H. apply Qle_bool_iff. apply Qlt_le_weak. apply Qnot_le_lt.
  intros Hle. apply Qle_bool_iff in Hle. congruence.
Qed.

Lemma clamp_rational q :
  clamp (Fin q) = Fin (if Qle_bool q 1 then 1 else if Qle_bool q 4 then q else 4).
Proof.
  unfold clamp. simpl. destruct (Qle_bool q 1); [reflexivity|].
  simpl. destruct (Qle_bool q 4); reflexivity.
Qed.

Lemma clamp_between x : x <> NaN -> between 1 4 (clamp x) = true.
Proof.
  destruct x as [| | |q|]; intros Hx; [contradiction|reflexivity|reflexivity| |reflexivity].
  rewrite clamp_rational. destruct (Qle_bool q 1) eqn:H1; [reflexivity|].
  destruct (Qle_bool q 4) eqn:H4; [|reflexivity].
  simpl. rewrite H4, (Qle_bool_false_flip _ _ H1). reflexivity.
Qed.

Lemma clamp_integer x : is_integer x = true -> is_integer (clamp x) = true.
Proof.
  destruct x as [| | |q|]; try discriminate; [reflexivity|]. intros Hq.
  rewrite clamp_rational. destruct (Qle_bool q 1); [reflexivity|].
  destruct (Qle_bool q 4); [exact Hq|reflexivity].
Qed.

(** *** The claims *)

(** C6, as the code has it.  For every [POST /fashn/tryon] request whose
    payload is posted, the [num_samples] property of the payload is
    [Math.min(Math.max(Number(v), 1), 4)] for the supplied value [v], and 1
    when none is supplied.  It lies between 1 and 4 whenever [v] converts to a
    number, and is an integer between 1 and 4 whenever [v] converts to an
    integer; ["0"] gives 1, ["10"] gives 4 and ["2"] gives 2. *)
Theorem num_samples_clamped axios_post req payload :
  fashn_tryon req = Post fashn_url payload ->
  let v := get (tryon_body req) "num_samples" in
  snd (post_fashn_tryon axios_post req) = [(fashn_url, payload)] /\
  exists x,
    num_samples v = Normal x /\
    top payload !! "num_samples" = Some (VNum x) /\
    (v = VUndefined -> x = Fin 1) /\
    (v <> VUndefined -> exists n, Number v = Normal n /\ x = clamp n) /\
    (forall q, Number v = Normal (Fin q) ->
       x = Fin (if Qle_bool q 1 then 1 else if Qle_bool q 4 then q else 4)) /\
    (forall n, Number v = Normal n -> n <> NaN -> between 1 4 x = true) /\
    (forall n, Number v = Normal n -> is_integer n = true -> sample_count x = true) /\
    (v = VStr "0" -> x = Fin 1) /\
    (v = VStr "10" -> x = Fin 4) /\
    (v = VStr "2" -> x = Fin 2).
Proof.
  intros Hp v.
  split; [unfold post_fashn_tryon; rewrite Hp; reflexivity|].
  destruct (fashn_tryon_posts req payload Hp) as (seed & x & _ & Hx & Htop).
  fold v in Hx. exists x. split; [exact Hx|].
  split; [rewrite Htop; apply tryon_object_num_samples|].
  assert (Hdef : forall n, Number v = Normal n -> n <> NaN -> x = clamp n).
  { intros n Hn Hnan. destruct (num_samples_spec _ _ Hx) as [[Hv _]|(_ & n' & Hn' & ->)].
    - rewrite Hv in Hn. injection Hn as <-. contradiction.
    - congruence. }
  split.
  { intros Hv. destruct (num_samples_spec _ _ Hx) as [[_ ->]|[Hne _]];
      [reflexivity|contradiction]. }
  split.
  { intros Hv. destruct (num_samples_spec _ _ Hx) as [[Hu _]|(_ & n & Hn & ->)];
      [contradiction|eauto]. }
  split.
  { intros q Hq. rewrite (Hdef _ Hq) by discriminate. apply clamp_rational. }
  split.
  { intros n Hn Hnan. rewrite (Hdef _ Hn Hnan). apply clamp_between. exact Hnan. }
  split.
  { intros n Hn Hi. assert (Hnan : n <> NaN) by (intros ->; discriminate).
    rewrite (Hdef _ Hn Hnan). unfold sample_count.
    rewrite clamp_integer by exact Hi. apply clamp_between. exact Hnan. }
  assert (Hlit : forall s q, v = VStr s -> StringToNumber s = Fin q -> x = clamp (Fin q)).
  { intros s q Hv Hs. apply Hdef; [|discriminate]. rewrite Hv. rewrite <- Hs. reflexivity. }
  repeat split; intros Hv.
  - rewrite (Hlit "0" 0%Q Hv) by (vm_compute; reflexivity). reflexivity.
  - rewrite (Hlit "10" 10%Q Hv) by (vm_compute; reflexivity). reflexivity.
  - rewrite (Hlit "2" 2%Q Hv) by (vm_compute; reflexivity). reflexivity.
Qed.

Lemma num_samples_clamped_witness :
  submitted_num_samples
    (mkTryon (Some (mkUpload "image/jpeg" "AAAA")) (Some (mkUpload "image/png" "BBBB"))
             {[ "num_samples" := VStr "10" ]})
  = Some (VNum (Fin 4)).
Proof.
  unfold submitted_num_samples. set (req := mkTryon _ _ _).
  assert (Hp : exists payload, fashn_tryon req = Post fashn_url payload)
    by (eexists; vm_compute; reflexivity).
  destruct Hp as [payload Hp].
  destruct (num_samples_clamped (fun _ _ => Created "{}") req payload Hp)
    as (_ & x & _ & Hx & _ & _ & _ & _ & _ & _ & H10 & _).
  rewrite Hp, Hx. rewrite H10; [reflexivity|]. vm_compute. reflexivity.
Defined.

(** C6 as stated fails: a fractional value inside the range is sent as it is,
    and a value that is no number is sent as [NaN]. *)
Lemma fractional_num_samples_not_an_integer :
  submitted_num_samples
    (mkTryon (Some (mkUpload "image/jpeg" "AAAA")) (Some (mkUpload "image/png" "BBBB"))
             {[ "num_samples" := VStr "2.5" ]})
    = Some (VNum (Fin (5 # 2))) /\
  sample_count (Fin (5 # 2)) = false /\
  submitted_num_samples
    (mkTryon (Some (mkUpload "image/jpeg" "AAAA")) (Some (mkUpload "image/png" "BBBB"))
             {[ "num_samples" := VStr "many" ]})
    = Some (VNum NaN) /\
  sample_count NaN = false.
Proof. repeat split; vm_compute; reflexivity. Qed.

(** C7, as the code has it.  [POST /image-to-3d] stores the body fields in
    the payload it posts: a field of [booleanFields] as a native boolean,
    which is the boolean meant when the field was supplied as ["true"],
    ["false"], [true] or [false]; a field of [numberFields] as [Number] of its
    value; every other field unchanged, except [__proto__], which is never
    stored.  [POST /fashn/tryon] sends [segmentation_free] and
    [return_base64] as native booleans in the same way, a supplied [seed] as
    [Number] of its value and a supplied [num_samples] as [Number] of its
    value clamped to the range from 1 to 4, and it sends no body field besides
    its nine parameters: an unrecognised field is dropped. *)
Theorem fields_are_coerced :
  (forall req b payload k v,
     body req = Some b -> image_to_3d req = Post meshy_url payload -> b !! k = Some v ->
     (k ∈ booleanFields ->
        exists flag, payload !! k = Some (VBool flag) /\
                     forall x, boolean_input v = Some x -> flag = x) /\
     (k ∈ numberFields ->
        exists x, Number v = Normal x /\ payload !! k = Some (VNum x)) /\
     (k ∉ booleanFields -> k ∉ numberFields -> k <> "__proto__" ->
        payload !! k = Some v) /\
     payload !! "__proto__" = None) /\
  (forall req payload,
     fashn_tryon req = Post fashn_url payload ->
     (forall k, k ∈ ["segmentation_free"; "return_base64"] ->
        exists flag, top payload !! k = Some (VBool flag) /\
                     forall x, boolean_input (get (tryon_body req) k) = Some x -> flag = x) /\
     (forall v, tryon_body req !! "seed" = Some v -> v <> VUndefined ->
        exists x, Number v = Normal x /\ top payload !! "seed" = Some (VNum x)) /\
     (forall v, tryon_body req !! "num_samples" = Some v -> v <> VUndefined ->
        exists x, Number v = Normal x /\
                  top payload !! "num_samples" = Some (VNum (clamp x))) /\
     (forall k, k ∉ "model_name" :: tryon_params -> top payload !! k = None)).
Proof.
  split.
  - intros req b payload k v Hb Hp Hk.
    destruct (posted_payload req b payload Hb Hp) as (url & _ & Hproto & Hf & _).
    split; [|split; [|split]].
    + intros Hin.
      assert (Hne : k <> "__proto__") by (intros ->; revert Hin; not_listed).
      destruct (Hf k v Hk Hne) as (x & Hx & Hpay).
      rewrite coerce_boolean in Hx by exact Hin. injection Hx as <-.
      eexists. split; [exact Hpay|]. intros x Hx. apply boolean_input_strict. exact Hx.
    + intros Hin.
      assert (Hne : k <> "__proto__") by (intros ->; revert Hin; not_listed).
      destruct (Hf k v Hk Hne) as (x & Hx & Hpay).
      rewrite coerce_number in Hx by exact Hin. sequence.
      destruct (Number v) as [n|m]; [|discriminate]. injection Hx as <-. eauto.
    + intros Hnb Hnn Hne. destruct (Hf k v Hk Hne) as (x & Hx & Hpay).
      rewrite coerce_other in Hx by assumption. injection Hx as <-. exact Hpay.
    + exact Hproto.
  - intros req payload Hp.
    destruct (fashn_tryon_posts req payload Hp) as (seed & samples & Hseed & Hsam & ->).
    split; [|split; [|split]].
    + intros k Hk. apply elem_of_cons in Hk. destruct Hk as [->|Hk].
      * eexists. split; [apply tryon_object_segmentation_free|].
        intros x Hx. apply boolean_input_bool_. exact Hx.
      * apply list_elem_of_singleton in Hk. subst k.
        eexists. split; [apply tryon_object_return_base64|].
        intros x Hx. apply boolean_input_bool_. exact Hx.
    + intros v Hv Hne. rewrite (get_Some _ _ _ Hv) in Hseed.
      destruct (num_spec _ _ Hseed) as [[Hu _]|(_ & n & Hn & ->)]; [contradiction|].
      exists n. split; [exact Hn|]. apply tryon_object_seed.
    + intros v Hv Hne. rewrite (get_Some _ _ _ Hv) in Hsam.
      destruct (num_samples_spec _ _ Hsam) as [[Hu _]|(_ & n & Hn & ->)]; [contradiction|].
      exists n. split; [exact Hn|]. apply tryon_object_num_samples.
    + intros k Hk. apply tryon_object_unknown. exact Hk.
Qed.

Lemma fields_are_coerced_witness :
  exists payload,
    image_to_3d (mkRequest None (Some ({[ "image_url" := VStr "https://x/y.png";
                                          "enable_pbr" := VStr "false";
                                          "ai_model" := VStr "latest" ]})))
      = Post meshy_url payload /\
    payload !! "ai_model" = Some (VStr "latest") /\
    exists flag, payload !! "enable_pbr" = Some (VBool flag) /\ flag = false.
Proof.
  set (b := ({[ "image_url" := VStr "https://x/y.png"; "enable_pbr" := VStr "false";
                "ai_model" := VStr "latest" ]} : gmap string value)).
  set (req := mkRequest None (Some b)).
  assert (Hp : exists payload, image_to_3d req = Post meshy_url payload)
    by (eexists; vm_compute; reflexivity).
  destruct Hp as [payload Hp].
  destruct fields_are_coerced as [H _].
  exists payload. split; [exact Hp|]. split.
  - apply (H req b payload "ai_model" (VStr "latest") eq_refl Hp);
      [vm_compute; reflexivity|not_listed|not_listed|discriminate].
  - destruct (proj1 (H req b payload "enable_pbr" (VStr "false") eq_refl Hp
                       ltac:(vm_compute; reflexivity)))
      as [flag [Hf Hx]]; [listed|].
    exists flag. split; [exact Hf|]. apply Hx. reflexivity.
Defined.

(** C7 as stated fails.  [POST /fashn/tryon] does not send a body field it
    does not know, and [POST /image-to-3d] does not send a field named
    [__proto__]. *)
Lemma unrecognised_fields_dropped :
  fashn_tryon (mkTryon (Some (mkUpload "image/jpeg" "AAAA"))
                       (Some (mkUpload "image/png" "BBBB"))
                       {[ "restore_background" := VStr "true" ]})
    = Post fashn_url (mkPayload "data:image/jpeg;base64,AAAA" "data:image/png;base64,BBBB"
                                (tryon_object {[ "restore_background" := VStr "true" ]}
                                              (Fin 42) (Fin 1))) /\
  ~ passes_through tryon_params {[ "restore_background" := VStr "true" ]}
      (tryon_object {[ "restore_background" := VStr "true" ]} (Fin 42) (Fin 1)) /\
  exists payload,
    image_to_3d (mkRequest None (Some ({[ "image_url" := VStr "https://x/y.png";
                                          "__proto__" := VStr "latest" ]})))
      = Post meshy_url payload /\
    ~ passes_through (booleanFields ++ numberFields)
        {[ "image_url" := VStr "https://x/y.png"; "__proto__" := VStr "latest" ]} payload.
Proof.
  split; [vm_compute; reflexivity|]. split.
  - intros H. specialize (H "restore_background" (VStr "true")).
    assert (Hn : tryon_object {[ "restore_background" := VStr "true" ]} (Fin 42) (Fin 1)
                   !! "restore_background" = None)
      by (apply tryon_object_unknown; unfold tryon_params; not_listed).
    rewrite H in Hn; [discriminate| |apply lookup_singleton_eq].
    unfold tryon_params. not_listed.
  - set (b := ({[ "image_url" := VStr "https://x/y.png"; "__proto__" := VStr "latest" ]}
                : gmap string value)).
    assert (Hp : exists payload, image_to_3d (mkRequest None (Some b)) = Post meshy_url payload)
      by (eexists; vm_compute; reflexivity).
    destruct Hp as [payload Hp]. exists payload. split; [exact Hp|].
    destruct (posted_payload (mkRequest None (Some b)) b payload eq_refl Hp)
      as (_ & _ & Hproto & _).
    intros H. specialize (H "__proto__" (VStr "latest")).
    rewrite H in Hproto; [discriminate| |vm_compute; reflexivity].
    unfold booleanFields, numberFields. cbn [app]. not_listed.
Qed.

(** C8.  A [POST /image-to-3d] request with no uploaded file and no
    [image_url] in its body is answered with status 400, and nothing is sent
    to the provider. *)
Theorem missing_image_rejected axios_post req :
  file req = None ->
  (forall b, body req = Some b -> b !! "image_url" = None) ->
  post_image_to_3d axios_post req
    = (mkReply 400 (ErrorJson "Provide an image file or image_url"), []).
Proof.
  intros Hf Hb. unfold post_image_to_3d, image_to_3d, image_source. rewrite Hf.
  destruct (body req) as [b|]; [|reflexivity].
  unfold get. rewrite (Hb b eq_refl). reflexivity.
Qed.

Lemma missing_image_rejected_witness :
  post_image_to_3d (fun _ _ => Created "{}")
    (mkRequest None (Some ({[ "should_remesh" := VStr "true" ]})))
  = (mkReply 400 (ErrorJson "Provide an image file or image_url"), []).
Proof.
  apply (missing_image_rejected (fun _ _ => Created "{}")
           (mkRequest None (Some ({[ "should_remesh" := VStr "true" ]})))).
  - reflexivity.
  - intros b [= <-]. reflexivity.
Defined.

(** C10.  When a [POST /image-to-3d] request carries both an uploaded file and
    an [image_url] field in its body, the payload posted to the provider has
    the body's [image_url], not the data URI of the file.  A payload is posted
    unless [Number] throws on [target_polycount]; the request is then answered
    500 and nothing is posted. *)
Theorem body_image_url_overrides_file axios_post req f b v :
  file req = Some f -> body req = Some b -> b !! "image_url" = Some v ->
  (unconvertible (get b "target_polycount") = false ->
     exists payload,
       image_to_3d req = Post meshy_url payload /\
       payload !! "image_url" = Some v /\
       snd (post_image_to_3d axios_post req) = [(meshy_url, payload)]) /\
  (unconvertible (get b "target_polycount") = true ->
     post_image_to_3d axios_post req = (mkReply 500 (ErrorJson primitive_error), [])).
Proof.
  intros Hf Hb Hv.
  assert (Hs : image_source req = Some (VStr (data_uri "image/png" f)))
    by (unfold image_source; rewrite Hf; reflexivity).
  destruct (image_to_3d_outcome req b _ Hb Hs) as [Hok Hthrow]. split.
  - intros Hc. destruct (Hok Hc) as [payload Hp]. exists payload.
    split; [exact Hp|]. split.
    + destruct (posted_payload req b payload Hb Hp) as (url & _ & _ & Hfield & _).
      destruct (Hfield "image_url" v Hv) as (x & Hx & Hpay); [discriminate|].
      rewrite coerce_other in Hx by not_listed. congruence.
    + unfold post_image_to_3d. rewrite Hp. reflexivity.
  - intros Hu. unfold post_image_to_3d. rewrite (Hthrow Hu). reflexivity.
Qed.

Lemma body_image_url_overrides_file_witness :
  exists payload,
    image_to_3d (mkRequest (Some (mkUpload "image/png" "AAAA"))
                           (Some ({[ "image_url" := VStr "https://x/y.png" ]})))
      = Post meshy_url payload /\
    payload !! "image_url" = Some (VStr "https://x/y.png").
Proof.
  destruct (body_image_url_overrides_file (fun _ _ => Created "{}")
              (mkRequest (Some (mkUpload "image/png" "AAAA"))
                         (Some ({[ "image_url" := VStr "https://x/y.png" ]})))
              (mkUpload "image/png" "AAAA") {[ "image_url" := VStr "https://x/y.png" ]}
              (VStr "https://x/y.png") eq_refl eq_refl (lookup_singleton_eq _ _))
    as [H _].
  destruct H as [payload (H1 & H2 & _)]; [vm_compute; reflexivity|].
  exists payload. split; assumption.
Defined.

End SubmitFacts.

(** ** [GET /download] *)

Module DownloadFacts.
Import Download.

(** Cutting at the first ["?"] or ["#"] is cutting at the first ["?"] and then
    at the first ["#"]. *)
Lemma before_either p q s :
  before (fun c => p c || q c) s = before q (before p s).
Proof.
  induction s as [|c s IH]; [reflexivity|].
  simpl. destruct (p c); simpl; [reflexivity|].
  destruct (q c); [reflexivity|]. rewrite IH. reflexivity.
Qed.

Lemma before_absent c s : has_char c s = false -> before (is_char c) s = s.
Proof.
  induction s as [|c' s IH]; [reflexivity|].
  simpl. intros H. apply orb_false_elim in H. destruct H as [Hc Hs].
  rewrite Hc, IH by exact Hs. reflexivity.
Qed.

(** [split("?")[0]] holds no ["?"], and the URL continues after it with
    ["?"] unless it ends there. *)
Lemma before_query_spec s :
  has_char "?" (before (is_char "?") s) = false /\
  (s = before (is_char "?") s \/
   exists rest, s = before (is_char "?") s +:+ String "?" rest).
Proof.
  induction s as [|c s [IH1 IH2]]; [split; [reflexivity|left; reflexivity]|].
  simpl. destruct (is_char "?" c) eqn:Hc.
  - split; [reflexivity|]. right. exists s.
    unfold is_char in Hc. apply Ascii.eqb_eq in Hc. subst c. reflexivity.
  - simpl. rewrite Hc, IH1. split; [reflexivity|].
    destruct IH2 as [IH2|[rest IH2]].
    + left. f_equal. exact IH2.
    + right. exists rest. change (String c s = String c (before (is_char "?") s +:+ String "?" rest)).
      f_equal. exact IH2.
Qed.

(** *** [path.basename] *)

Lemma has_char_of_list c l :
  has_char c (string_of_list_ascii l) = existsb (is_char c) l.
Proof. induction l as [|a l IH]; [reflexivity|]. simpl. rewrite IH. reflexivity. Qed.

Lemma has_char_to_list c s :
  has_char c s = existsb (is_char c) (list_ascii_of_string s).
Proof. induction s as [|a s IH]; [reflexivity|]. simpl. rewrite IH. reflexivity. Qed.

Lemma existsb_until_slash f l :
  existsb f (until_slash l) = true -> existsb f l = true.
Proof.
  induction l as [|a l IH]; [auto|]. simpl.
  destruct (is_char "/" a); [discriminate|]. simpl.
  intros H. apply orb_prop in H. destruct H as [->|H]; [reflexivity|].
  rewrite (IH H). apply orb_true_r.
Qed.

Lemma existsb_drop_slashes f l :
  existsb f (drop_slashes l) = true -> existsb f l = true.
Proof.
  induction l as [|a l IH]; [auto|]. simpl.
  destruct (is_char "/" a); [|auto].
  intros H. rewrite (IH H). apply orb_true_r.
Qed.

Lemma until_slash_clean l : existsb (is_char "/") (until_slash l) = false.
Proof.
  induction l as [|a l IH]; [reflexivity|]. simpl.
  destruct (is_char "/" a) eqn:Ha; [reflexivity|]. simpl. rewrite Ha. exact IH.
Qed.

Lemma existsb_rev_eq {A} (f : A -> bool) l : existsb f (rev l) = existsb f l.
Proof.
  induction l as [|a l IH]; [reflexivity|].
  simpl. rewrite existsb_app, IH. simpl. rewrite orb_false_r. apply orb_comm.
Qed.

(** The characters of [basename s] are characters of [s]. *)
Lemma basename_chars c s : has_char c (basename s) = true -> has_char c s = true.
Proof.
  unfold basename. rewrite has_char_of_list, existsb_rev_eq, has_char_to_list.
  intros H. apply existsb_until_slash, existsb_drop_slashes in H.
  rewrite existsb_rev_eq in H. exact H.
Qed.

Lemma before_clean c s : has_char c (before (is_char c) s) = false.
Proof.
  induction s as [|a s IH]; [reflexivity|]. simpl.
  destruct (is_char c a) eqn:Ha; [reflexivity|]. simpl. rewrite Ha. exact IH.
Qed.

Lemma list_of_append a b :
  list_ascii_of_string (a +:+ b) = list_ascii_of_string a ++ list_ascii_of_string b.
Proof.
  induction a as [|c a IH]; [reflexivity|].
  change (String c a +:+ b) with (String c (a +:+ b)). simpl. rewrite IH. reflexivity.
Qed.

Lemma before_stop stop a c b :
  stop c = true -> before stop (a +:+ String c b) = before stop a.
Proof.
  intros Hc. induction a as [|x a IH].
  - simpl. rewrite Hc. reflexivity.
  - change (String x a +:+ String c b) with (String x (a +:+ String c b)).
    simpl. destruct (stop x); [reflexivity|]. rewrite IH. reflexivity.
Qed.

Lemma until_slash_app l r :
  existsb (is_char "/") l = false -> until_slash (l ++ "/"%char :: r) = l.
Proof.
  induction l as [|a l IH]; [reflexivity|]. simpl. intros H.
  apply orb_false_elim in H. destruct H as [Ha Hl]. rewrite Ha, (IH Hl). reflexivity.
Qed.

Lemma drop_slashes_id l :
  l <> [] -> existsb (is_char "/") l = false -> forall r, drop_slashes (l ++ r) = l ++ r.
Proof.
  destruct l as [|a l]; [contradiction|]. simpl. intros _ H r.
  apply orb_false_elim in H. destruct H as [-> _]. reflexivity.
Qed.

(** The last segment of [dir/name] is [name]. *)
Lemma basename_of_segment dir name :
  name <> EmptyString -> has_char "/" name = false ->
  basename (dir +:+ String "/" name) = name.
Proof.
  intros Hne Hs. unfold basename.
  rewrite list_of_append. cbn [list_ascii_of_string].
  rewrite rev_app_distr. cbn [rev]. rewrite <- app_assoc. cbn [app].
  rewrite has_char_to_list in Hs.
  assert (Hr : existsb (is_char "/") (rev (list_ascii_of_string name)) = false)
    by (rewrite existsb_rev_eq; exact Hs).
  assert (Hn : rev (list_ascii_of_string name) <> []).
  { destruct name as [|c name]; [contradiction|]. simpl.
    intros E. apply app_eq_nil in E. destruct E as [_ E]. discriminate. }
  rewrite (drop_slashes_id _ Hn Hr), (until_slash_app _ _ Hr), rev_involutive.
  apply string_of_list_ascii_of_string.
Qed.

(** A path without ["/"] is its own last segment. *)
Lemma until_slash_plain l : existsb (is_char "/") l = false -> until_slash l = l.
Proof.
  induction l as [|a l IH]; [reflexivity|]. simpl. intros H.
  apply orb_false_elim in H. destruct H as [Ha Hl]. rewrite Ha, (IH Hl). reflexivity.
Qed.

Lemma drop_slashes_plain l : existsb (is_char "/") l = false -> drop_slashes l = l.
Proof.
  destruct l as [|a l]; [reflexivity|]. simpl. intros H.
  apply orb_false_elim in H. destruct H as [-> _]. reflexivity.
Qed.

Lemma basename_plain s : has_char "/" s = false -> basename s = s.
Proof.
  intros H. unfold basename. rewrite has_char_to_list in H.
  assert (Hr : existsb (is_char "/") (rev (list_ascii_of_string s)) = false)
    by (rewrite existsb_rev_eq; exact H).
  rewrite (drop_slashes_plain _ Hr), (until_slash_plain _ Hr), rev_involutive.
  apply string_of_list_ascii_of_string.
Qed.

Lemma filename_clean decoded :
  has_char "/" (filename decoded) = false /\
  has_char "?" (filename decoded) = false.
Proof.
  split.
  - unfold filename, basename.
    rewrite has_char_of_list, existsb_rev_eq. apply until_slash_clean.
  - destruct (has_char "?" (filename decoded)) eqn:H; [|reflexivity].
    unfold filename in H. apply basename_chars in H.
    rewrite before_clean in H. discriminate.
Qed.

(** *** The header value *)

(** The closing quote neither completes nor breaks a character. *)
Lemma header_value_quoted f :
  header_value_ok (f +:+ dquote) = header_value_ok f /\
  forall c, header_value_ok (String c f +:+ dquote) = header_value_ok (String c f).
Proof.
  induction f as [|a f [IH1 IH2]].
  - split; [reflexivity|]. intros c.
    change (String c EmptyString +:+ dquote) with (String c dquote).
    cbn [header_value_ok].
    destruct ((N_of_ascii c =? 9) || (32 <=? N_of_ascii c) && (N_of_ascii c <=? 126))%N;
      [reflexivity|].
    destruct ((N_of_ascii c =? 194) || (N_of_ascii c =? 195))%N; reflexivity.
  - split; [apply IH2|]. intros c.
    change (String c (String a f) +:+ dquote) with (String c (String a f +:+ dquote)).
    cbn [header_value_ok].
    destruct ((N_of_ascii c =? 9) || (32 <=? N_of_ascii c) && (N_of_ascii c <=? 126))%N;
      [apply IH2|].
    destruct ((N_of_ascii c =? 194) || (N_of_ascii c =? 195))%N; [|reflexivity].
    change (String a f +:+ dquote) with (String a (f +:+ dquote)). cbv beta iota.
    rewrite IH1. reflexivity.
Qed.

(** The header value is accepted exactly when the file name is. *)
Lemma disposition_ok decoded :
  header_value_ok (content_disposition decoded) = header_value_ok (filename decoded).
Proof.
  unfold content_disposition.
  transitivity (header_value_ok (filename decoded +:+ dquote)); [reflexivity|].
  apply header_value_quoted.
Qed.

(** C9, as the code has it.  For a [GET /download] request whose [url]
    parameter decodes to [decoded] and whose remote fetch succeeds, the file
    name is the last path segment of what stands before the first ["?"] of
    [decoded]: the query string is stripped, a fragment is not.  When the file
    name holds only characters that a header value may hold, the stream is
    relayed under the [Content-Disposition] header with that file name;
    otherwise [res.setHeader] throws and the request is answered 500.  When no
    ["#"] stands before the first ["?"], the file name is the last path
    segment with query string and fragment stripped. *)
Theorem filename_strips_query decodeURIComponent axios_get c u decoded stream :
  decodeURIComponent (String c u) = Some decoded ->
  axios_get decoded = inl stream ->
  (header_value_ok (filename decoded) = true ->
   download decodeURIComponent axios_get (Some (String c u))
     = (Relay ("attachment; filename=" +:+ dquote +:+
               basename (before (is_char "?") decoded) +:+ dquote) stream, [decoded])) /\
  (header_value_ok (filename decoded) = false ->
   download decodeURIComponent axios_get (Some (String c u))
     = (ServerError invalid_header, [decoded])) /\
  has_char "?" (before (is_char "?") decoded) = false /\
  has_char "/" (filename decoded) = false /\
  has_char "?" (filename decoded) = false /\
  (forall dir name,
     before (is_char "?") decoded = dir +:+ String "/" name ->
     name <> EmptyString -> has_char "/" name = false ->
     filename decoded = name) /\
  (has_char "/" (before (is_char "?") decoded) = false ->
   filename decoded = before (is_char "?") decoded) /\
  (has_char "#" (before (is_char "?") decoded) = false ->
   filename decoded = stripped_filename decoded).
Proof.
  intros Hd Hg.
  split; [|split; [|split; [|split; [|split; [|split; [|split]]]]]].
  - intros Hok. unfold download. rewrite Hd, Hg, disposition_ok, Hok. reflexivity.
  - intros Hbad. unfold download. rewrite Hd, Hg, disposition_ok, Hbad. reflexivity.
  - apply before_query_spec.
  - apply filename_clean.
  - apply filename_clean.
  - intros dir name E Hne Hs. unfold filename. rewrite E.
    apply basename_of_segment; assumption.
  - intros Hs. apply basename_plain. exact Hs.
  - intros Hf. unfold filename, stripped_filename.
    rewrite before_either, (before_absent "#" _ Hf). reflexivity.
Qed.

Lemma filename_strips_query_witness :
  download Some (fun _ => inl "bytes") (Some "https://cdn.example/out/a.png?x=1")
    = (Relay ("attachment; filename=" +:+ dquote +:+ "a.png" +:+ dquote) "bytes",
       ["https://cdn.example/out/a.png?x=1"]) /\
  filename "https://cdn.example/out/a.png?x=1"
    = stripped_filename "https://cdn.example/out/a.png?x=1".
Proof.
  destruct (filename_strips_query Some (fun _ => inl "bytes")
              "h" "ttps://cdn.example/out/a.png?x=1"
              "https://cdn.example/out/a.png?x=1" "bytes" eq_refl eq_refl)
    as (H1 & _ & _ & _ & _ & _ & _ & H2).
  split; [apply H1; reflexivity|]. apply H2. reflexivity.
Defined.

(** C9 as stated fails: the fragment stays in the file name, and for a file
    name with a character above U+00FF no header is sent at all. *)
Lemma fragment_kept_in_filename :
  filename "https://cdn.example/out/a.png#frag" = "a.png#frag" /\
  stripped_filename "https://cdn.example/out/a.png#frag" = "a.png" /\
  filename "https://cdn.example/out/a.png#frag"
    <> stripped_filename "https://cdn.example/out/a.png#frag" /\
  fst (download Uri.decodeURIComponent (fun _ => inl "bytes")
         (Some "https://cdn.example/out/%E2%82%AC.png"))
    = ServerError invalid_header.
Proof.
  split; [reflexivity|]. split; [reflexivity|].
  split; [vm_compute; discriminate|vm_compute; reflexivity].
Qed.

End DownloadFacts.

(** ** [encodeURIComponent] and [decodeURIComponent] *)

Module UriFacts.
Import Uri.

(** Case analysis on the eight bits of a byte. *)
Ltac each_byte c := destruct c as [[] [] [] [] [] [] [] []].

Lemma hex_round_trip c :
  hex_value (hex_digit (N_of_ascii c / 16)) = Some (N_of_ascii c / 16)%N /\
  hex_value (hex_digit (N_of_ascii c mod 16)) = Some (N_of_ascii c mod 16)%N /\
  ascii_of_N (16 * (N_of_ascii c / 16) + N_of_ascii c mod 16) = c.
Proof. each_byte c; vm_compute; auto. Qed.

Lemma unreserved_not_percent c : uriUnreserved c = true -> (c =? "%")%char = false.
Proof. each_byte c; vm_compute; auto. Qed.

Lemma unreserved_is_ascii c : uriUnreserved c = true -> (N_of_ascii c <? 128)%N = true.
Proof. each_byte c; vm_compute; auto. Qed.

Lemma hex_digit_unreserved c :
  uriUnreserved (hex_digit (N_of_ascii c / 16)) = true /\
  uriUnreserved (hex_digit (N_of_ascii c mod 16)) = true.
Proof. each_byte c; vm_compute; auto. Qed.

Lemma tokens_encode s :
  tokens (encodeURIComponent s) = Some (map written_as (list_ascii_of_string s)).
Proof.
  induction s as [|c s IH]; [reflexivity|].
  cbn [encodeURIComponent list_ascii_of_string map]. unfold written_as at 1.
  destruct (uriUnreserved c) eqn:Hu.
  - change (String c EmptyString +:+ encodeURIComponent s)
      with (String c (encodeURIComponent s)).
    cbn [tokens]. rewrite (unreserved_not_percent c Hu), IH. reflexivity.
  - change (escape c +:+ encodeURIComponent s)
      with (String "%" (String (hex_digit (N_of_ascii c / 16))
             (String (hex_digit (N_of_ascii c mod 16)) (encodeURIComponent s)))).
    cbn [tokens]. change ("%" =? "%")%char with true. cbv iota.
    destruct (hex_round_trip c) as (H1 & H2 & H3).
    rewrite H1, H2, H3, IH. reflexivity.
Qed.

Lemma written_as_inj l1 l2 : map written_as l1 = map written_as l2 -> l1 = l2.
Proof.
  revert l2. induction l1 as [|a l1 IH]; intros [|b l2] H; try discriminate; [reflexivity|].
  cbn [map] in H. injection H as Hab Hl. f_equal; [|apply IH; exact Hl].
  unfold written_as in Hab.
  destruct (uriUnreserved a), (uriUnreserved b); congruence.
Qed.

Lemma list_ascii_inj s1 s2 : list_ascii_of_string s1 = list_ascii_of_string s2 -> s1 = s2.
Proof.
  intros H. rewrite <- (string_of_list_ascii_of_string s1), H.
  apply string_of_list_ascii_of_string.
Qed.

Lemma all_chars_app ok s1 s2 :
  all_chars ok (s1 +:+ s2) = all_chars ok s1 && all_chars ok s2.
Proof.
  induction s1 as [|c s1 IH]; [reflexivity|].
  change (String c s1 +:+ s2) with (String c (s1 +:+ s2)).
  cbn [all_chars]. rewrite IH. apply andb_assoc.
Qed.

Lemma all_chars_absent ok c s :
  all_chars ok s = true -> ok c = false -> Download.has_char c s = false.
Proof.
  intros Hs Hc. induction s as [|c' s IH]; [reflexivity|].
  cbn [all_chars] in Hs. apply andb_prop in Hs. destruct Hs as [Hc' Hs].
  cbn [Download.has_char]. rewrite (IH Hs), orb_false_r.
  unfold Download.is_char. destruct (Ascii.eqb_spec c' c) as [->|]; [congruence|reflexivity].
Qed.

(** *** Decoding *)

Lemma tokens_plain s :
  Download.has_char "%" s = false ->
  tokens s = Some (map Raw (list_ascii_of_string s)).
Proof.
  induction s as [|c s IH]; [reflexivity|].
  cbn [Download.has_char]. intros H. apply orb_false_elim in H. destruct H as [Hc Hs].
  cbn [tokens list_ascii_of_string map].
  unfold Download.is_char in Hc. rewrite Hc, (IH Hs). reflexivity.
Qed.

Lemma octets_raw l : octets (map Raw l) = Some l.
Proof. induction l as [|c l IH]; [reflexivity|]. cbn [map octets]. rewrite IH. reflexivity. Qed.

Lemma lead_low b w lo hi : lead b = Some (w, lo, hi) -> (128 <= lo)%N.
Proof.
  unfold lead.
  repeat match goal with
         | |- context [if ?c then _ else _] => destruct c
         end; intros [= <- <- <-] || discriminate; lia.
Qed.

Lemma continuation_written lo hi b :
  (128 <= lo)%N -> in_range lo hi b = true -> continuation lo hi (written_as b) = Some b.
Proof.
  intros Hlo Hr. unfold written_as.
  destruct (uriUnreserved b) eqn:Hu.
  - apply unreserved_is_ascii in Hu. unfold in_range in Hr.
    apply andb_prop in Hr. destruct Hr as [Hr _].
    apply N.leb_le in Hr. apply N.ltb_lt in Hu. lia.
  - cbn [continuation]. rewrite Hr. reflexivity.
Qed.

Lemma written_as_high b : (N_of_ascii b <? 128)%N = false -> written_as b = Esc b.
Proof.
  intros H. unfold written_as. destruct (uriUnreserved b) eqn:Hu; [|reflexivity].
  apply unreserved_is_ascii in Hu. congruence.
Qed.

Lemma octets_written_low b l r :
  (N_of_ascii b <? 128)%N = true -> octets r = Some l ->
  octets (written_as b :: r) = Some (b :: l).
Proof.
  intros Hb Hr. unfold written_as. destruct (uriUnreserved b); cbn [octets].
  - rewrite Hr. reflexivity.
  - rewrite Hb, Hr. reflexivity.
Qed.

Lemma octets_written n :
  forall l, (length l <= n)%nat -> utf8 l = true -> octets (map written_as l) = Some l.
Proof.
  induction n as [|n IH]; intros l Hn Hu.
  - destruct l; [reflexivity|simpl in Hn; lia].
  - destruct l as [|b r]; [reflexivity|].
    cbn [utf8] in Hu. cbn [map].
    destruct (N_of_ascii b <? 128)%N eqn:Hb.
    + apply octets_written_low; [exact Hb|]. apply IH; [simpl in Hn; lia|exact Hu].
    + rewrite (written_as_high b Hb). cbn [octets]. rewrite Hb.
      destruct (lead b) as [[[w lo] hi]|] eqn:Hl; [|discriminate].
      pose proof (lead_low b w lo hi Hl) as Hlo.
      destruct w.
      * destruct r as [|b1 r1]; [discriminate|].
        apply andb_prop in Hu. destruct Hu as [H1 Hu].
        cbn [map]. rewrite (continuation_written lo hi b1 Hlo H1).
        rewrite (IH r1); [reflexivity|simpl in Hn; lia|exact Hu].
      * destruct r as [|b1 [|b2 r2]]; try discriminate.
        apply andb_prop in Hu. destruct Hu as [Hu Hr].
        apply andb_prop in Hu. destruct Hu as [H1 H2].
        cbn [map]. rewrite (continuation_written lo hi b1 Hlo H1).
        rewrite (continuation_written 128 191 b2 (N.le_refl _) H2).
        rewrite (IH r2); [reflexivity|simpl in Hn; lia|exact Hr].
      * destruct r as [|b1 [|b2 [|b3 r3]]]; try discriminate.
        apply andb_prop in Hu. destruct Hu as [Hu Hr].
        apply andb_prop in Hu. destruct Hu as [Hu H3].
        apply andb_prop in Hu. destruct Hu as [H1 H2].
        cbn [map]. rewrite (continuation_written lo hi b1 Hlo H1).
        rewrite (continuation_written 128 191 b2 (N.le_refl _) H2).
        rewrite (continuation_written 128 191 b3 (N.le_refl _) H3).
        rewrite (IH r3); [reflexivity|simpl in Hn; lia|exact Hr].
Qed.

(** *** Properties of the two conversions *)

Lemma encode_chars s :
  all_chars (fun c => uriUnreserved c || (c =? "%")%char) (encodeURIComponent s) = true.
Proof.
  induction s as [|c s IH]; [reflexivity|].
  cbn [encodeURIComponent]. rewrite all_chars_app, IH, andb_true_r.
  destruct (uriUnreserved c) eqn:Hu.
  - cbn [all_chars]. rewrite Hu. reflexivity.
  - unfold escape. cbn [all_chars].
    destruct (hex_digit_unreserved c) as [-> ->]. reflexivity.
Qed.

Lemma encode_free_of c s :
  uriUnreserved c = false -> (c =? "%")%char = false ->
  Download.has_char c (encodeURIComponent s) = false.
Proof.
  intros Hu Hp. apply (all_chars_absent _ _ _ (encode_chars s)).
  rewrite Hu, Hp. reflexivity.
Qed.

Lemma encode_inj s1 s2 : encodeURIComponent s1 = encodeURIComponent s2 -> s1 = s2.
Proof.
  intros H. apply list_ascii_inj, written_as_inj.
  pose proof (tokens_encode s1) as H1. rewrite H, tokens_encode in H1.
  congruence.
Qed.

Lemma decode_encode_id s :
  well_formed s = true -> decodeURIComponent (encodeURIComponent s) = Some s.
Proof.
  intros Hs. unfold decodeURIComponent. rewrite tokens_encode.
  rewrite (octets_written (length (list_ascii_of_string s))); [|lia|exact Hs].
  rewrite string_of_list_ascii_of_string. reflexivity.
Qed.

Lemma decode_plain s :
  Download.has_char "%" s = false -> decodeURIComponent s = Some s.
Proof.
  intros H. unfold decodeURIComponent.
  rewrite (tokens_plain s H), octets_raw, string_of_list_ascii_of_string. reflexivity.
Qed.

Lemma decode_stray pre rest :
  Download.has_char "%" pre = false -> two_hex rest = false ->
  decodeURIComponent (pre +:+ String "%" rest) = None.
Proof.
  intros Hpre Hrest. unfold decodeURIComponent.
  assert (Ht : tokens (pre +:+ String "%" rest) = None).
  { induction pre as [|c pre IH].
    - change (EmptyString +:+ String "%" rest) with (String "%" rest).
      cbn [tokens]. change ("%" =? "%")%char with true. cbv iota.
      destruct rest as [|h [|l r]]; try reflexivity.
      cbn [two_hex] in Hrest.
      destruct (hex_value h); [|reflexivity].
      destruct (hex_value l); [discriminate|reflexivity].
    - cbn [Download.has_char] in Hpre. apply orb_false_elim in Hpre.
      destruct Hpre as [Hc Hpre].
      change (String c pre +:+ String "%" rest) with (String c (pre +:+ String "%" rest)).
      cbn [tokens]. unfold Download.is_char in Hc. rewrite Hc, (IH Hpre). reflexivity. }
  rewrite Ht. reflexivity.
Qed.

(** X1.  Whatever the text, [encodeURIComponent] yields only unreserved
    characters and ["%"]; in particular its result holds no ["/"], ["?"],
    ["#"] or ["&"]. *)
Theorem encoded_text_is_inert s :
  all_chars (fun c => uriUnreserved c || (c =? "%")%char) (encodeURIComponent s) = true /\
  Download.has_char "/" (encodeURIComponent s) = false /\
  Download.has_char "?" (encodeURIComponent s) = false /\
  Download.has_char "#" (encodeURIComponent s) = false /\
  Download.has_char "&" (encodeURIComponent s) = false.
Proof.
  split; [apply encode_chars|].
  repeat split; apply encode_free_of; reflexivity.
Qed.

(** X2.  [encodeURIComponent] is injective: two different texts never have
    the same encoding. *)
Theorem encode_injective s1 s2 :
  encodeURIComponent s1 = encodeURIComponent s2 -> s1 = s2.
Proof. apply encode_inj. Qed.

Lemma encode_injective_witness : "task 1" = "task 1".
Proof. apply (encode_injective "task 1" "task 1"). reflexivity. Defined.

(** X3.  [decodeURIComponent] undoes [encodeURIComponent] on every well-formed
    text. *)
Theorem decode_encode s :
  well_formed s = true -> decodeURIComponent (encodeURIComponent s) = Some s.
Proof. apply decode_encode_id. Qed.

Lemma decode_encode_witness :
  decodeURIComponent (encodeURIComponent "https://x/y z.png?a=1#f")
    = Some "https://x/y z.png?a=1#f".
Proof. apply (decode_encode "https://x/y z.png?a=1#f"). reflexivity. Defined.

(** X4.  A text without ["%"] is decoded to itself. *)
Theorem decode_without_escape s :
  Download.has_char "%" s = false -> decodeURIComponent s = Some s.
Proof. apply decode_plain. Qed.

Lemma decode_without_escape_witness :
  decodeURIComponent "https://assets.example/a.glb?Expires=1"
    = Some "https://assets.example/a.glb?Expires=1".
Proof. apply (decode_without_escape "https://assets.example/a.glb?Expires=1"). reflexivity. Defined.

(** X5.  A text whose first ["%"] is not followed by two hexadecimal digits
    makes [decodeURIComponent] throw. *)
Theorem decode_rejects_stray_percent pre rest :
  Download.has_char "%" pre = false -> two_hex rest = false ->
  decodeURIComponent (pre +:+ String "%" rest) = None.
Proof. apply decode_stray. Qed.

Lemma decode_rejects_stray_percent_witness :
  decodeURIComponent "https://x/100%.png" = None.
Proof.
  apply (decode_rejects_stray_percent "https://x/100" ".png"); reflexivity.
Defined.

End UriFacts.

(** ** The status endpoints *)

Module StatusFacts.
Import Submit Status.

Lemma append_cancel_l s a b : s +:+ a = s +:+ b -> a = b.
Proof.
  induction s as [|c s IH]; [auto|].
  change (String c s +:+ a) with (String c (s +:+ a)).
  change (String c s +:+ b) with (String c (s +:+ b)).
  intros [= H]. auto.
Qed.

(** X6.  Different task ids are looked up at different provider URLs. *)
Theorem status_url_injective p id1 id2 :
  status_url p id1 = status_url p id2 -> id1 = id2.
Proof.
  unfold status_url. intros H.
  apply UriFacts.encode_inj, (append_cancel_l _ _ _ H).
Qed.

Lemma status_url_injective_witness : "task-123" = "task-123".
Proof. apply (status_url_injective Sse.Meshy "task-123" "task-123"). reflexivity. Defined.

(** X7.  A status request asks the provider exactly once, at the status path of
    that provider followed by one segment that holds no ["/"], ["?"] or ["#"],
    whatever the id; it answers 200 with the provider's data exactly when the
    provider answered, and 500 otherwise. *)
Theorem status_request_stays_on_endpoint axios_get p id :
  exists segment,
    snd (get_status axios_get p id) = [status_base p +:+ segment] /\
    Download.has_char "/" segment = false /\
    Download.has_char "?" segment = false /\
    Download.has_char "#" segment = false /\
    (forall data, axios_get (status_base p +:+ segment) = Created data ->
       fst (get_status axios_get p id) = mkReply 200 (DataJson data)) /\
    (forall data m, axios_get (status_base p +:+ segment) = Failed data m ->
       fst (get_status axios_get p id) = mkReply 500 (ErrorJson (default m data))).
Proof.
  exists (Uri.encodeURIComponent id).
  split; [reflexivity|].
  repeat (split; [apply UriFacts.encode_free_of; reflexivity|]).
  unfold get_status, status_url. split.
  - intros data ->. reflexivity.
  - intros data m ->. destruct data; reflexivity.
Qed.

End StatusFacts.

(** ** [GET /download], continued *)

Module DownloadMore.
Import Download DownloadFacts.

(** X8.  The file name of the [Content-Disposition] header is a single path
    segment: it holds no ["/"] and no ["?"], whatever the URL. *)
Theorem filename_is_one_segment decoded :
  has_char "/" (filename decoded) = false /\
  has_char "?" (filename decoded) = false.
Proof. apply filename_clean. Qed.

(** X9.  For a URL of the shape [dir/name?query] the file name is [name], and
    so it is for [dir/name] without a query. *)
Theorem filename_of_asset dir name query :
  name <> EmptyString -> has_char "/" name = false ->
  has_char "?" dir = false -> has_char "?" name = false ->
  filename (dir +:+ String "/" name +:+ String "?" query) = name /\
  filename (dir +:+ String "/" name) = name.
Proof.
  intros Hne Hs Hd Hn.
  assert (Hq : has_char "?" (dir +:+ String "/" name) = false).
  { rewrite has_char_to_list, list_of_append, existsb_app.
    rewrite <- has_char_to_list, Hd. cbn [list_ascii_of_string existsb].
    rewrite <- has_char_to_list, Hn. reflexivity. }
  unfold filename. split.
  - change (dir +:+ String "/" name +:+ String "?" query)
      with (dir +:+ (String "/" name +:+ String "?" query)).
    change (String "/" name +:+ String "?" query)
      with (String "/" (name +:+ String "?" query)).
    replace (dir +:+ String "/" (name +:+ String "?" query))
      with ((dir +:+ String "/" name) +:+ String "?" query).
    + rewrite before_stop by reflexivity. rewrite (before_absent _ _ Hq).
      apply basename_of_segment; assumption.
    + clear. induction dir as [|c dir IH]; [reflexivity|].
      change (String c dir +:+ String "/" name) with (String c (dir +:+ String "/" name)).
      change (String c (dir +:+ String "/" name) +:+ String "?" query)
        with (String c ((dir +:+ String "/" name) +:+ String "?" query)).
      rewrite IH. reflexivity.
  - rewrite (before_absent _ _ Hq). apply basename_of_segment; assumption.
Qed.

Lemma filename_of_asset_witness :
  filename "https://assets.meshy.ai/t/model.glb?Expires=1&Signature=a/b" = "model.glb".
Proof.
  apply (filename_of_asset "https://assets.meshy.ai/t" "model.glb" "Expires=1&Signature=a/b");
    [discriminate|reflexivity..].
Defined.

Section AnyClient.

Variable decode : string -> option string.
Variable axios_get : string -> string + string.

(** X10.  A download request fetches at most one URL, and only the decoded
    [url] parameter; without a [url], or with an empty one, it answers 400 and
    fetches nothing, and when a non-empty [url] cannot be decoded it answers
    500 and fetches nothing.  It relays a stream only when that fetch
    succeeded. *)
Theorem download_fetches_only_decoded url :
  (url = None \/ url = Some EmptyString ->
     download decode axios_get url = (BadRequest "Missing url query param", [])) /\
  (forall c u, url = Some (String c u) -> decode (String c u) = None ->
     download decode axios_get url = (ServerError uri_error, [])) /\
  (snd (download decode axios_get url) = [] \/
   exists u d, url = Some u /\ decode u = Some d /\
               snd (download decode axios_get url) = [d]) /\
  (forall disposition stream,
     fst (download decode axios_get url) = Relay disposition stream ->
     exists u d, url = Some u /\ decode u = Some d /\ axios_get d = inl stream /\
                 disposition = content_disposition d).
Proof.
  split; [intros [->| ->]; reflexivity|].
  split.
  { intros c u -> Hd. cbn [download]. rewrite Hd. reflexivity. }
  destruct url as [[|c u]|]; cbn [download].
  - split; [left; reflexivity|discriminate].
  - destruct (decode (String c u)) as [d|] eqn:Hd; [|split; [left; reflexivity|discriminate]].
    destruct (axios_get d) as [stream|m] eqn:Hg.
    + split; [right; eauto|]. intros disp st.
      destruct (header_value_ok (content_disposition d)); [|discriminate].
      intros [= <- <-]. eauto 6.
    + split; [right; eauto|discriminate].
  - split; [left; reflexivity|discriminate].
Qed.

(** X11.  With the real [decodeURIComponent]: a non-empty [url] without ["%"]
    is fetched as it is; a [url] with a stray ["%"] is answered 500 and nothing
    is fetched; and the encoding of a well-formed URL is fetched as that
    URL. *)
Theorem download_decodes_url :
  (forall c u, has_char "%" (String c u) = false ->
     snd (download Uri.decodeURIComponent axios_get (Some (String c u))) = [String c u]) /\
  (forall pre rest, has_char "%" pre = false -> Uri.two_hex rest = false ->
     download Uri.decodeURIComponent axios_get (Some (pre +:+ String "%" rest))
       = (ServerError uri_error, [])) /\
  (forall c v, Uri.well_formed (String c v) = true ->
     snd (download Uri.decodeURIComponent axios_get
            (Some (Uri.encodeURIComponent (String c v)))) = [String c v]).
Proof.
  split; [|split].
  - intros c u H. cbn [download]. rewrite (UriFacts.decode_plain _ H).
    destruct (axios_get (String c u)); reflexivity.
  - intros pre rest Hp Hr.
    pose proof (UriFacts.decode_stray pre rest Hp Hr) as Hd.
    unfold download. destruct (pre +:+ String "%" rest) eqn:E.
    + destruct pre; discriminate.
    + rewrite Hd. reflexivity.
  - intros c v Hw. pose proof (UriFacts.decode_encode_id _ Hw) as Hd.
    unfold download. destruct (Uri.encodeURIComponent (String c v)) eqn:E.
    + cbn [Uri.encodeURIComponent] in E. destruct (Uri.uriUnreserved c); discriminate.
    + rewrite Hd. destruct (axios_get (String c v)); reflexivity.
Qed.

End AnyClient.

End DownloadMore.

(** ** The SSE pollers, continued *)

Module SseMore.
Import Sse SseViews.

(** *** When a session is stopped *)

Lemma ended_snoc w b : ended (w ++ b) = ended w || ended b.
Proof. apply existsb_app. Qed.

Lemma disconnected_snoc w b : disconnected (w ++ b) = disconnected w || disconnected b.
Proof. apply existsb_app. Qed.

(** What a step appends to the log, with the state it leaves. *)
Lemma step_block p s i :
  step p s i = s \/
  (exists due, i = Tick /\ interval s = Some due /\ wire (step p s i) = wire s /\
               stopped (step p s i) = stopped s /\ interval (step p s i) = Some (due + intervalMs)) \/
  (exists b, block b /\ wire (step p s i) = wire s ++ b /\
     ((ended b = false /\ disconnected b = false /\
       stopped (step p s i) = stopped s /\ interval (step p s i) = interval s) \/
      ((ended b = true \/ disconnected b = true) /\
       stopped (step p s i) = true /\ interval (step p s i) = None))).
Proof.
  destruct i as [|id r|]; simpl.
  - unfold on_tick. destruct (interval s) as [due|] eqn:Hi; [|left; reflexivity].
    right. left. exists due. simpl. destruct (stopped s) eqn:Hs; simpl; rewrite ?Hs; auto.
  - unfold on_settle. case_bool_decide as Hin; [|left; reflexivity].
    right. right. destruct r as [d|m].
    + destruct d as [|st txt].
      * exists [Wrote (EvMessage JsonNull); Wrote (EvError null_status_message); Ended].
        split; [constructor|].
        destruct p; simpl; rewrite <- ?app_assoc; (split; [reflexivity|]); right; auto.
      * destruct (is_terminal p st) eqn:Ht.
        -- exists [Wrote (EvMessage (JsonValue st txt)); Wrote (EvFinished (JsonValue st txt)); Ended].
           split; [constructor|].
           destruct p; simpl; rewrite <- ?app_assoc; (split; [reflexivity|]); right; auto.
        -- exists [Wrote (EvMessage (JsonValue st txt))].
           split; [constructor|]. simpl. split; [reflexivity|]. left. auto.
    + exists [Wrote (EvError m); Ended]. split; [constructor|].
      destruct p; simpl; rewrite <- ?app_assoc; (split; [reflexivity|]); right; auto.
  - right. right. exists [Disconnected]. split; [constructor|]. simpl.
    split; [reflexivity|]. right. auto.
Qed.

Lemma run_snoc' p s tr i : run p s (tr ++ [i]) = step p (run p s tr) i.
Proof. unfold run. rewrite fold_left_app. reflexivity. Qed.

(** The three ways of saying that a session is over agree. *)
Lemma run_stopped p t0 tr :
  let s := run p (subscribe t0) tr in
  (stopped s = true <-> interval s = None) /\
  (stopped s = true <-> ended (wire s) = true \/ disconnected (wire s) = true).
Proof.
  induction tr as [|i tr IH] using rev_ind.
  - simpl. split; split; try discriminate. intros [H|H]; discriminate.
  - rewrite run_snoc'. set (s := run p (subscribe t0) tr) in *. cbv zeta in IH |- *.
    destruct IH as [IH1 IH2].
    destruct (step_block p s i) as [->|[(due & _ & Hi & Hw & Hs & Hi')|(b & Hb & Hw & H)]].
    + split; assumption.
    + rewrite Hw, Hs, Hi'. split; [|exact IH2].
      split; [|discriminate]. intros H. apply IH1 in H. congruence.
    + rewrite Hw, ended_snoc, disconnected_snoc.
      destruct H as [(He & Hd & Hs & Hi)|(Hed & Hs & Hi)].
      * rewrite He, Hd, Hs, Hi, !orb_false_r. split; assumption.
      * rewrite Hs, Hi. split; [tauto|]. split; [|reflexivity].
        intros _. destruct Hed as [->| ->]; rewrite orb_true_r; auto.
Qed.

(** X12.  In every session, [stopped] is set exactly when the timer has been
    cleared, and exactly when the response has been ended or the client has
    left; so the test [if (stopped) return;] never holds back a timer that
    fires: each firing sends a request. *)
Theorem stopped_means_timer_cleared p t0 tr :
  let s := run p (subscribe t0) tr in
  (stopped s = true <-> interval s = None) /\
  (stopped s = true <-> ended (wire s) = true \/ disconnected (wire s) = true) /\
  (forall due, interval s = Some due -> fetches (step p s Tick) = fetches s ++ [due]).
Proof.
  intros s. destruct (run_stopped p t0 tr) as [H1 H2]. fold s in H1, H2.
  split; [exact H1|]. split; [exact H2|].
  intros due Hi.
  assert (Hs : stopped s = false).
  { apply not_true_is_false. intros Hs. apply H1 in Hs. congruence. }
  simpl. unfold on_tick. rewrite Hi. simpl. rewrite Hs. reflexivity.
Qed.

(** *** The shape of the response log *)

Lemma run_framed p t0 tr : framed (wire (run p (subscribe t0) tr)).
Proof.
  induction tr as [|i tr IH] using rev_ind; [constructor|].
  rewrite run_snoc'. set (s := run p (subscribe t0) tr) in *.
  destruct (step_block p s i) as [->|[(due & _ & _ & -> & _)|(b & Hb & -> & _)]];
    [exact IH|exact IH|].
  constructor; assumption.
Qed.

(** Walk down a block looking for the given entry. *)
Ltac peel E l :=
  repeat (destruct l as [|? l]; cbn [app] in E;
          [try discriminate E | first [discriminate E | injection E as ? E]]).

Lemma framed_finished w :
  framed w -> forall w1 w2 d, w = w1 ++ Wrote (EvFinished d) :: w2 ->
  exists w0 w3, w1 = w0 ++ [Wrote (EvMessage d)] /\ w2 = Ended :: w3.
Proof.
  induction 1 as [|w b Hw IH Hb]; intros w1 w2 d E.
  - destruct w1; discriminate.
  - apply app_eq_app in E. destruct E as [l [[E1 E2]|[E1 E2]]].
    + destruct l as [|x l].
      * simpl in E2. destruct Hb; discriminate.
      * simpl in E2. injection E2 as <- ->.
        destruct (IH _ _ _ E1) as (w0 & w3 & -> & ->).
        exists w0, (w3 ++ b). split; reflexivity.
    + subst w1. destruct Hb; peel E2 l.
      injection E2 as <- <-. subst. exists w, []. split; reflexivity.
Qed.

Lemma framed_ended w :
  framed w -> forall w1 w2, w = w1 ++ Ended :: w2 ->
  exists w0 e, w1 = w0 ++ [Wrote e] /\ (is_finished e = true \/ event_name e = Some "error").
Proof.
  induction 1 as [|w b Hw IH Hb]; intros w1 w2 E.
  - destruct w1; discriminate.
  - apply app_eq_app in E. destruct E as [l [[E1 E2]|[E1 E2]]].
    + destruct l as [|x l].
      * simpl in E2. destruct Hb; discriminate.
      * simpl in E2. injection E2 as <- ->. exact (IH _ _ E1).
    + subst w1. destruct Hb; peel E2 l; subst.
      * exists (w ++ [Wrote (EvMessage d)]), (EvFinished d).
        rewrite <- app_assoc. split; [reflexivity|left; reflexivity].
      * exists (w ++ [Wrote (EvMessage d)]), (EvError m).
        rewrite <- app_assoc. split; [reflexivity|right; reflexivity].
      * exists w, (EvError m). split; [reflexivity|right; reflexivity].
Qed.

(** X13.  In the response log of every session, a [finished] frame stands
    directly after the data frame of the same envelope and directly before
    [res.end()], and [res.end()] is only ever called directly after a
    [finished] or an [error] frame. *)
Theorem response_log_is_framed p t0 tr :
  let w := wire (run p (subscribe t0) tr) in
  (forall w1 w2 d, w = w1 ++ Wrote (EvFinished d) :: w2 ->
     exists w0 w3, w1 = w0 ++ [Wrote (EvMessage d)] /\ w2 = Ended :: w3) /\
  (forall w1 w2, w = w1 ++ Ended :: w2 ->
     exists w0 e, w1 = w0 ++ [Wrote e] /\
                  (is_finished e = true \/ event_name e = Some "error")).
Proof.
  intros w. split.
  - apply framed_finished, run_framed.
  - apply framed_ended, run_framed.
Qed.

(** *** Sessions without overlapping fetches *)

Lemma only_pending id s :
  (length (in_flight s) <= 1)%nat -> id ∈ in_flight s -> in_flight s = [id].
Proof.
  destruct (in_flight s) as [|a [|b l]]; simpl; intros Hl Hin.
  - inversion Hin.
  - apply list_elem_of_singleton in Hin. subst. reflexivity.
  - lia.
Qed.

Lemma orderly_append s s' frames tail :
  orderly s -> ended (wire s) = false ->
  wire s' = wire s ++ map Wrote frames ++ tail ->
  (tail = [] /\ interval s' = interval s \/ tail = [Ended] /\ interval s' = None) ->
  in_flight s' = [] ->
  orderly s'.
Proof.
  intros (_ & _ & Hc) He Hw Ht Hf. unfold orderly.
  rewrite Hw, Hf, !ended_snoc, He, !SseFacts.calls_app, !SseFacts.written_app, Hc, He.
  assert (Hm : calls (map Wrote frames) = map Wrote frames /\
               written (map Wrote frames) = frames /\ ended (map Wrote frames) = false).
  { clear. induction frames as [|e l [IH1 [IH2 IH3]]]; [auto|].
    simpl. rewrite IH1, IH2. auto. }
  destruct Hm as (Hm1 & Hm2 & Hm3). rewrite Hm1, Hm2, Hm3.
  destruct Ht as [[-> Hi]|[-> Hi]]; simpl; rewrite ?app_nil_r, ?map_app, ?app_nil_r.
  - split; [lia|]. split; [discriminate|]. reflexivity.
  - split; [lia|]. split; [auto|]. rewrite <- app_assoc. reflexivity.
Qed.

Lemma step_orderly p s i :
  orderly s -> (i = Tick -> in_flight s = []) -> orderly (step p s i).
Proof.
  intros Ho Hi. pose proof Ho as (Hl & He & Hc).
  destruct i as [|id r|]; simpl.
  - specialize (Hi eq_refl). unfold on_tick.
    destruct (interval s) as [due|] eqn:Hint; [|exact Ho].
    assert (Hne : ended (wire s) = false).
    { destruct (ended (wire s)); [|reflexivity]. destruct (He eq_refl). congruence. }
    unfold orderly. simpl. destruct (stopped s); simpl; rewrite Hi, Hc, Hne; simpl;
      (split; [lia|]); (split; [discriminate|reflexivity]).
  - unfold on_settle. case_bool_decide as Hin; [|exact Ho].
    pose proof (only_pending id s Hl Hin) as Hone.
    assert (Hne : ended (wire s) = false).
    { destruct (ended (wire s)); [|reflexivity]. destruct (He eq_refl). congruence. }
    assert (Hrm : List.remove Nat.eq_dec id (in_flight s) = []).
    { rewrite Hone. apply SseFacts.remove_only. }
    destruct r as [d|m].
    + destruct d as [|st txt].
      * apply (orderly_append s _ [EvMessage JsonNull; EvError null_status_message] [Ended]);
          try assumption; destruct p; simpl; rewrite <- ?app_assoc; auto.
      * destruct (is_terminal p st).
        -- apply (orderly_append s _ [EvMessage (JsonValue st txt); EvFinished (JsonValue st txt)]
                    [Ended]); try assumption; destruct p; simpl; rewrite <- ?app_assoc; auto.
        -- apply (orderly_append s _ [EvMessage (JsonValue st txt)] []); try assumption;
             simpl; auto.
    + apply (orderly_append s _ [EvError m] [Ended]); try assumption;
        destruct p; simpl; rewrite <- ?app_assoc; auto.
  - unfold orderly. simpl.
    rewrite ended_snoc, SseFacts.calls_app, SseFacts.written_app. simpl.
    rewrite !app_nil_r, orb_false_r. split; [exact Hl|]. split; [|exact Hc].
    intros H. destruct (He H) as [_ ->]. auto.
Qed.

Lemma run_orderly p s tr :
  orderly s -> prompt p s tr = true -> orderly (run p s tr).
Proof.
  revert s. induction tr as [|i tr IH]; intros s Ho Hp; [exact Ho|].
  simpl in Hp. apply andb_prop in Hp. destruct Hp as [Hi Hp].
  change (run p s (i :: tr)) with (run p (step p s i) tr).
  apply IH; [|exact Hp]. apply step_orderly; [exact Ho|].
  intros ->. destruct (in_flight s); [reflexivity|discriminate].
Qed.

(** X14.  In a session in which every fetch is settled before the timer fires
    again, [res.end()] is called at most once and nothing is written after
    it: the calls made on the response are the frames written, followed by
    [res.end()] if the response was ended. *)
Theorem prompt_session_writes_nothing_after_end p t0 tr :
  prompt p (subscribe t0) tr = true ->
  let s := run p (subscribe t0) tr in
  calls (wire s) = map Wrote (written (wire s)) ++ (if ended (wire s) then [Ended] else []).
Proof.
  intros Hp. apply (run_orderly p (subscribe t0) tr); [|exact Hp].
  unfold orderly. simpl. split; [lia|]. split; [discriminate|reflexivity].
Qed.

Lemma prompt_session_writes_nothing_after_end_witness :
  calls (wire (run Fashn (subscribe 0)
                 [Tick; Settle 0%nat (Resolved (status_only "processing"));
                  Tick; Settle 1%nat (Resolved (status_only "completed")); Close; Tick]))
    = [Wrote (EvMessage (status_only "processing"));
       Wrote (EvMessage (status_only "completed"));
       Wrote (EvFinished (status_only "completed")); Ended].
Proof.
  apply (prompt_session_writes_nothing_after_end Fashn 0
           [Tick; Settle 0%nat (Resolved (status_only "processing"));
            Tick; Settle 1%nat (Resolved (status_only "completed")); Close; Tick]).
  reflexivity.
Defined.

(** *** Sessions that only see non-terminal statuses *)

Lemma remove_tracked id l :
  NoDup l -> NoDup (List.remove Nat.eq_dec id l) /\
  (forall x, In x (List.remove Nat.eq_dec id l) -> In x l) /\
  (In id l -> S (length (List.remove Nat.eq_dec id l)) = length l).
Proof.
  induction 1 as [|a l Ha Hl [IH1 [IH2 IH3]]];
    [simpl; split; [constructor|split; [auto|intros []]]|].
  rewrite list_elem_of_In in Ha.
  simpl. destruct (Nat.eq_dec id a) as [->|Hne].
  - rewrite (notin_remove Nat.eq_dec l a Ha). repeat split; auto.
  - repeat split.
    + constructor; [|exact IH1]. rewrite list_elem_of_In. intros Hin. apply Ha, IH2, Hin.
    + intros x [->|Hx]; [left; reflexivity|right; apply IH2, Hx].
    + intros [E|Hin]; [congruence|]. simpl. rewrite (IH3 Hin). reflexivity.
Qed.

Lemma step_polling p s i :
  polling s -> benign p [i] = true -> polling (step p s i).
Proof.
  intros (Hs & Hi & Hd & (Hnd & Hlt) & Hc) Hb.
  destruct i as [|id r|]; simpl in *; [| |discriminate].
  - unfold on_tick. destruct (interval s) as [due|]; [|contradiction].
    simpl. rewrite Hs. unfold polling, tracked. simpl.
    rewrite !List.length_app. simpl. repeat split; try (discriminate || assumption || lia).
    + apply NoDup_app. split; [exact Hnd|]. split; [|apply NoDup_singleton].
      intros x Hx Hx'. apply list_elem_of_singleton in Hx'. subst x.
      apply list_elem_of_In, Hlt in Hx. lia.
    + intros x Hx. apply in_app_iff in Hx. destruct Hx as [Hx|[<-|[]]]; [apply Hlt in Hx|]; lia.
  - destruct r as [d|m]; [|discriminate]. destruct d as [|st txt]; [discriminate|].
    rewrite andb_true_r in Hb. apply negb_true_iff in Hb. simpl in Hb.
    unfold on_settle. case_bool_decide as Hin; [|repeat split; assumption].
    rewrite Hb. destruct (remove_tracked id _ Hnd) as (R1 & R2 & R3).
    apply list_elem_of_In in Hin. specialize (R3 Hin).
    unfold polling, tracked. simpl. unfold only_data in *.
    rewrite forallb_app, Hd, List.length_app. simpl.
    repeat split; try assumption; [intros x Hx; apply Hlt, R2, Hx|lia].
Qed.

Lemma run_polling p s tr :
  polling s -> benign p tr = true -> polling (run p s tr).
Proof.
  revert s. induction tr as [|i tr IH]; intros s Hs Hb; [exact Hs|].
  unfold benign in Hb. cbn [forallb] in Hb. apply andb_prop in Hb. destruct Hb as [Hi Hb].
  change (run p s (i :: tr)) with (run p (step p s i) tr).
  apply IH; [|exact Hb]. apply step_polling; [exact Hs|].
  unfold benign. cbn [forallb]. rewrite Hi. reflexivity.
Qed.

(** X15.  As long as every poll resolves with a status outside the terminal
    set and the client stays, the session keeps polling: it is not stopped,
    one request has been sent per firing of the timer, and the response holds
    exactly one data frame per completed poll and nothing else. *)
Theorem non_terminal_polls_keep_streaming p t0 tr :
  benign p tr = true ->
  let s := run p (subscribe t0) tr in
  stopped s = false /\
  length (fetches s) = ticks tr /\
  only_data (wire s) = true /\
  (length (wire s) + length (in_flight s) = length (fetches s))%nat.
Proof.
  intros Hb s.
  assert (Hp : polling s).
  { apply run_polling; [|exact Hb]. unfold polling, tracked. simpl.
    repeat split; try discriminate; try constructor. intros id []. }
  destruct Hp as (Hs & _ & Hd & _ & Hc).
  destruct (SseFacts.run_on_schedule p t0 tr) as [_ Ht]. fold s in Ht. rewrite Hs in Ht.
  repeat split; try assumption. apply Ht.
Qed.

Lemma non_terminal_polls_keep_streaming_witness :
  wire (run Meshy (subscribe 0)
          [Tick; Settle 0%nat (Resolved (status_only "PENDING"));
           Tick; Tick; Settle 2%nat (Resolved (status_only "IN_PROGRESS"))])
    = [Wrote (EvMessage (status_only "PENDING")); Wrote (EvMessage (status_only "IN_PROGRESS"))] /\
  stopped (run Meshy (subscribe 0)
          [Tick; Settle 0%nat (Resolved (status_only "PENDING"));
           Tick; Tick; Settle 2%nat (Resolved (status_only "IN_PROGRESS"))]) = false.
Proof.
  split; [reflexivity|].
  apply (non_terminal_polls_keep_streaming Meshy 0
           [Tick; Settle 0%nat (Resolved (status_only "PENDING"));
            Tick; Tick; Settle 2%nat (Resolved (status_only "IN_PROGRESS"))]).
  reflexivity.
Defined.

(** X16.  A poll that succeeds with the body [null] ends the session: the
    data frame is written, reading [data.status] throws, and the [catch] block
    writes an [error] frame, clears the timer and ends the response; no fetch
    is started afterwards. *)
Theorem null_body_ends_session p s id :
  pending id s = true ->
  let s' := step p s (Settle id (Resolved JsonNull)) in
  wire s' = wire s ++ [Wrote (EvMessage JsonNull); Wrote (EvError null_status_message); Ended] /\
  stopped s' = true /\ interval s' = None /\
  forall tr, fetches (run p s' tr) = fetches s.
Proof.
  unfold pending. intros Hin. simpl. unfold on_settle. rewrite Hin.
  assert (H : forall s0, interval s0 = None -> forall tr, fetches (run p s0 tr) = fetches s0)
    by (intros s0 H0 tr; apply SseFacts.run_cleared; exact H0).
  destruct p; simpl; rewrite <- !app_assoc; repeat split; intros tr; rewrite H; reflexivity.
Qed.

Lemma null_body_ends_session_witness :
  wire (run Meshy (subscribe 0) [Tick; Settle 0%nat (Resolved JsonNull)])
    = [Wrote (EvMessage JsonNull); Wrote (EvError null_status_message); Ended].
Proof.
  apply (null_body_ends_session Meshy (run Meshy (subscribe 0) [Tick]) 0%nat). reflexivity.
Defined.

End SseMore.

(** ** The submission handlers, continued *)

Module SubmitMore.
Import Js Submit TryonDefaults SubmitFacts.

(** X17.  In every payload posted to Meshy, [should_texture] is a native
    boolean when it is there: the body's value read as a boolean ([true] only
    for ["true"] and [true]) when the body names it, and [true] when the body
    does not name it and the payload inherits none.  When the body has a
    [__proto__] object with a [should_texture] of its own, the payload
    inherits that one: the default is skipped and no [should_texture] is
    sent. *)
Theorem should_texture_defaults_to_true req b payload :
  body req = Some b -> image_to_3d req = Post meshy_url payload ->
  payload !! "should_texture" =
    match b !! "should_texture" with
    | Some v => Some (VBool (is_string v "true" || is_bool v true))
    | None =>
        match inherited b "should_texture" with
        | VUndefined => Some (VBool true)
        | _ => None
        end
    end /\
  (b !! "should_texture" = None -> b !! "__proto__" = None ->
     payload !! "should_texture" = Some (VBool true)) /\
  (forall v, payload !! "should_texture" = Some v -> exists flag, v = VBool flag).
Proof.
  intros Hb Hp. destruct (posted_payload req b payload Hb Hp) as (url & _ & _ & Hf & _ & Ht & _).
  assert (H : payload !! "should_texture" =
            match b !! "should_texture" with
            | Some v => Some (VBool (is_string v "true" || is_bool v true))
            | None =>
                match inherited b "should_texture" with
                | VUndefined => Some (VBool true)
                | _ => None
                end
            end).
  { destruct (b !! "should_texture") as [v|] eqn:E; [|apply Ht; reflexivity].
    destruct (Hf _ v E) as (x & Hx & Hpay); [discriminate|].
    rewrite coerce_boolean in Hx by listed. congruence. }
  split; [exact H|]. split.
  - intros Hn Hproto. rewrite H, Hn. unfold inherited, prototype_from.
    rewrite Hproto. reflexivity.
  - intros v. rewrite H. destruct (b !! "should_texture").
    + intros [= <-]. eauto.
    + destruct (inherited b "should_texture"); try discriminate. intros [= <-]. eauto.
Qed.

Lemma should_texture_defaults_to_true_witness :
  exists payload,
    image_to_3d
      (mkRequest None
         (Some ({[ "image_url" := VStr "https://x/y.png";
                   "__proto__" := VObject true {[ "should_texture" := VBool false ]} ]})))
      = Post meshy_url payload /\
    payload !! "should_texture" = None.
Proof.
  set (b := ({[ "image_url" := VStr "https://x/y.png";
                "__proto__" := VObject true {[ "should_texture" := VBool false ]} ]}
              : gmap string value)).
  assert (Hp : exists payload, image_to_3d (mkRequest None (Some b)) = Post meshy_url payload)
    by (eexists; vm_compute; reflexivity).
  destruct Hp as [payload Hp]. exists payload. split; [exact Hp|].
  rewrite (proj1 (should_texture_defaults_to_true (mkRequest None (Some b)) b payload
                    eq_refl Hp)).
  vm_compute. reflexivity.
Defined.

(** X18.  The payload posted to Meshy has the fields of the body other than
    [__proto__], together with [image_url] and, unless the payload inherits
    one, [should_texture]; a field named [__proto__] is never posted.  For a
    body without [__proto__] these are exactly the fields of the body,
    [image_url] and [should_texture]. *)
Theorem payload_fields req b payload :
  body req = Some b -> image_to_3d req = Post meshy_url payload ->
  dom payload =
    (dom b ∖ {[ "__proto__" ]}) ∪ {[ "image_url" ]} ∪
    match inherited b "should_texture" with
    | VUndefined => {[ "should_texture" ]}
    | _ => ∅
    end /\
  (b !! "__proto__" = None ->
     dom payload = dom b ∪ {[ "image_url"; "should_texture" ]}).
Proof.
  intros Hb Hp.
  destruct (posted_payload req b payload Hb Hp) as (url & _ & Hproto & Hf & Hi & Ht & Hn).
  assert (Hdom : forall k,
            k ∈ dom payload <->
            (k ∈ dom b /\ k <> "__proto__") \/ k = "image_url" \/
            (k = "should_texture" /\ inherited b "should_texture" = VUndefined)).
  { intros k. rewrite !elem_of_dom. split.
    - intros Hk. destruct (decide (k = "__proto__")) as [->|Hne].
      { rewrite Hproto in Hk. destruct Hk; discriminate. }
      destruct (b !! k) as [v|] eqn:E; [left; split; [eauto|exact Hne]|].
      destruct (decide (k = "image_url")) as [->|Hu]; [right; left; reflexivity|].
      destruct (decide (k = "should_texture")) as [->|Hs].
      + right. right. split; [reflexivity|]. rewrite (Ht E) in Hk.
        destruct (inherited b "should_texture"); try reflexivity; destruct Hk; discriminate.
      + rewrite (Hn k E Hu Hs) in Hk. destruct Hk; discriminate.
    - intros [[[v Hk] Hne]|[->|[-> Hu]]].
      + destruct (Hf k v Hk Hne) as (x & _ & Hpay). eauto.
      + destruct (b !! "image_url") as [v|] eqn:E; [|rewrite (Hi eq_refl); eauto].
        destruct (Hf _ v E) as (x & _ & Hpay); [discriminate|eauto].
      + destruct (b !! "should_texture") as [v|] eqn:E.
        * destruct (Hf _ v E) as (x & _ & Hpay); [discriminate|eauto].
        * rewrite (Ht eq_refl), Hu. eauto. }
  assert (Hall : dom payload =
            (dom b ∖ {[ "__proto__" ]}) ∪ {[ "image_url" ]} ∪
            match inherited b "should_texture" with
            | VUndefined => {[ "should_texture" ]}
            | _ => ∅
            end).
  { apply set_eq. intros k. rewrite Hdom, !elem_of_union, elem_of_difference,
      !elem_of_singleton.
    assert (Hlast : k ∈ match inherited b "should_texture" with
                        | VUndefined => ({[ "should_texture" ]} : gset string)
                        | _ => ∅
                        end <->
                    k = "should_texture" /\ inherited b "should_texture" = VUndefined).
    { destruct (inherited b "should_texture");
        rewrite ?elem_of_singleton, ?elem_of_empty; split; try tauto;
        try (intros [_ ?]; discriminate). }
    rewrite Hlast. tauto. }
  split; [exact Hall|].
  intros Hno. rewrite Hall. unfold inherited, prototype_from. rewrite Hno.
  assert (Hout : "__proto__" ∉ dom b) by (apply not_elem_of_dom; exact Hno).
  rewrite (difference_disjoint_L (dom b) {[ "__proto__" ]})
    by (apply disjoint_singleton_r; exact Hout).
  symmetry. apply (assoc_L (∪)).
Qed.

Lemma payload_fields_witness :
  exists payload,
    image_to_3d (mkRequest (Some (mkUpload "image/png" "AAAA"))
                           (Some ({[ "enable_pbr" := VStr "true" ]})))
      = Post meshy_url payload /\
    dom payload = {[ "enable_pbr" ]} ∪ {[ "image_url"; "should_texture" ]}.
Proof.
  set (b := ({[ "enable_pbr" := VStr "true" ]} : gmap string value)).
  set (req := mkRequest (Some (mkUpload "image/png" "AAAA")) (Some b)).
  assert (Hp : exists payload, image_to_3d req = Post meshy_url payload)
    by (eexists; vm_compute; reflexivity).
  destruct Hp as [payload Hp]. exists payload. split; [exact Hp|].
  rewrite (proj2 (payload_fields req b payload eq_refl Hp)) by (vm_compute; reflexivity).
  unfold b. rewrite dom_singleton_L. reflexivity.
Defined.

(** X19.  A boolean field whose value is none of ["true"], ["false"], [true],
    [false] is sent as [false] by [POST /image-to-3d]; [POST /fashn/tryon]
    falls back on the default of the field instead, [true] for
    [segmentation_free] and [false] for [return_base64]. *)
Theorem unreadable_boolean :
  (forall req b payload k v,
     body req = Some b -> image_to_3d req = Post meshy_url payload ->
     k ∈ booleanFields -> b !! k = Some v -> boolean_input v = None ->
     payload !! k = Some (VBool false)) /\
  (forall req payload,
     fashn_tryon req = Post fashn_url payload ->
     (boolean_input (get (tryon_body req) "segmentation_free") = None ->
        top payload !! "segmentation_free" = Some (VBool true)) /\
     (boolean_input (get (tryon_body req) "return_base64") = None ->
        top payload !! "return_base64" = Some (VBool false))).
Proof.
  assert (Hn : forall v, boolean_input v = None ->
            is_string v "true" = false /\ is_string v "false" = false /\
            is_bool v true = false /\ is_bool v false = false).
  { intros v. destruct v as [| |x|n|s|l|i p]; simpl; auto; [discriminate|].
    repeat case_bool_decide; auto; discriminate. }
  split.
  - intros req b payload k v Hb Hp Hk Hv Hi.
    destruct (posted_payload req b payload Hb Hp) as (url & _ & _ & Hf & _).
    assert (Hne : k <> "__proto__") by (intros ->; revert Hk; not_listed).
    destruct (Hf k v Hv Hne) as (x & Hx & Hpay).
    rewrite coerce_boolean in Hx by exact Hk. injection Hx as <-.
    rewrite Hpay. destruct (Hn v Hi) as (-> & _ & -> & _). reflexivity.
  - intros req payload Hp.
    destruct (fashn_tryon_posts req payload Hp) as (seed & samples & _ & _ & ->). split.
    + intros Hi. rewrite tryon_object_segmentation_free. unfold bool_.
      destruct (Hn _ Hi) as (-> & -> & -> & ->). reflexivity.
    + intros Hi. rewrite tryon_object_return_base64. unfold bool_.
      destruct (Hn _ Hi) as (-> & -> & -> & ->). reflexivity.
Qed.

Lemma unreadable_boolean_witness :
  exists payload,
    image_to_3d (mkRequest None (Some ({[ "image_url" := VStr "https://x/y.png";
                                          "enable_pbr" := VStr "TRUE" ]})))
      = Post meshy_url payload /\
    payload !! "enable_pbr" = Some (VBool false).
Proof.
  set (b := ({[ "image_url" := VStr "https://x/y.png"; "enable_pbr" := VStr "TRUE" ]}
              : gmap string value)).
  assert (Hp : exists payload, image_to_3d (mkRequest None (Some b)) = Post meshy_url payload)
    by (eexists; vm_compute; reflexivity).
  destruct Hp as [payload Hp]. exists payload. split; [exact Hp|].
  apply (proj1 unreadable_boolean (mkRequest None (Some b)) b payload "enable_pbr" (VStr "TRUE"));
    [reflexivity|exact Hp|listed|vm_compute; reflexivity|reflexivity].
Defined.

Lemma conduct_relays (P : Type) (ax : string -> P -> upstream_result) (pl : plan P) u :
  (forall url payload, pl = Post url payload -> url = u) ->
  (forall st e, pl = Reject st e -> st <> 200) ->
  let r := conduct ax pl in
  (snd r = [] \/ exists payload, snd r = [(u, payload)]) /\
  (status (fst r) = 200 ->
     exists payload data, snd r = [(u, payload)] /\
       ax u payload = Created data /\ content (fst r) = DataJson data) /\
  (forall payload data m, snd r = [(u, payload)] ->
     ax u payload = Failed data m ->
     fst r = mkReply 500 (ErrorJson (default m data))).
Proof.
  intros Hu Hr. destruct pl as [st e|m|url payload]; cbn [conduct fst snd].
  - split; [left; reflexivity|]. split; [|discriminate].
    cbn. intros E. destruct (Hr st e eq_refl E).
  - split; [left; reflexivity|]. split; discriminate.
  - rewrite (Hu url payload eq_refl).
    split; [right; eauto|]. split.
    + destruct (ax u payload) as [data|[data|] m] eqn:E; cbn; try discriminate.
      intros _. eauto.
    + intros payload' data m [= <-] E. rewrite E. destruct data; reflexivity.
Qed.

(** The two plans post to the fixed URL of their provider and reject with
    400 only. *)
Lemma image_to_3d_plan req :
  (forall url payload, image_to_3d req = Post url payload -> url = meshy_url) /\
  (forall st e, image_to_3d req = Reject st e -> st = 400).
Proof.
  unfold image_to_3d. destruct (image_source req) as [url|].
  - destruct (body req) as [b|]; [|split; discriminate].
    destruct (copy_fields b _) as [o|m]; split; try discriminate.
    intros url' payload [= <- _]. reflexivity.
  - split; [discriminate|]. intros st e [= <- _]. reflexivity.
Qed.

Lemma fashn_tryon_plan req :
  (forall url payload, fashn_tryon req = Post url payload -> url = fashn_url) /\
  (forall st e, fashn_tryon req = Reject st e -> st = 400).
Proof.
  unfold fashn_tryon. destruct (person req), (garment req);
    try (split; [discriminate|intros st e [= <- _]; reflexivity]).
  destruct (tryon_fields _) as [fields|m]; split; try discriminate.
  intros url payload [= <- _]. reflexivity.
Qed.

(** X20.  Both submission handlers call their provider at most once, at its
    fixed URL; they answer 200 only with what the provider answered, and when
    the call fails they answer 500 with the provider's error body, or with the
    error message when there is none. *)
Theorem submission_relays_provider :
  (forall axios_post req,
     let r := post_image_to_3d axios_post req in
     (snd r = [] \/ exists payload, snd r = [(meshy_url, payload)]) /\
     (status (fst r) = 200 ->
        exists payload data, snd r = [(meshy_url, payload)] /\
          axios_post meshy_url payload = Created data /\ content (fst r) = DataJson data) /\
     (forall payload data m, snd r = [(meshy_url, payload)] ->
        axios_post meshy_url payload = Failed data m ->
        fst r = mkReply 500 (ErrorJson (default m data)))) /\
  (forall axios_post req,
     let r := post_fashn_tryon axios_post req in
     (snd r = [] \/ exists payload, snd r = [(fashn_url, payload)]) /\
     (status (fst r) = 200 ->
        exists payload data, snd r = [(fashn_url, payload)] /\
          axios_post fashn_url payload = Created data /\ content (fst r) = DataJson data) /\
     (forall payload data m, snd r = [(fashn_url, payload)] ->
        axios_post fashn_url payload = Failed data m ->
        fst r = mkReply 500 (ErrorJson (default m data)))).
Proof.
  split; intros ax req.
  - destruct (image_to_3d_plan req) as [Hu Hr]. apply conduct_relays; [exact Hu|].
    intros st e E. rewrite (Hr st e E). discriminate.
  - destruct (fashn_tryon_plan req) as [Hu Hr]. apply conduct_relays; [exact Hu|].
    intros st e E. rewrite (Hr st e E). discriminate.
Qed.

(** Only a rejected plan is answered 400. *)
Lemma conduct_400 (P : Type) (ax : string -> P -> upstream_result) (pl : plan P) :
  status (fst (conduct ax pl)) = 400 -> exists e, pl = Reject 400 e.
Proof.
  destruct pl as [st e|m|url payload]; cbn [conduct fst].
  - cbn. intros ->. eauto.
  - discriminate.
  - destruct (ax url payload) as [data|[data|] m]; discriminate.
Qed.

(** X21.  [POST /image-to-3d] answers 400 exactly when there is no uploaded
    file and no truthy [image_url]: an [image_url] that is empty, [null],
    [false] or zero counts as missing, as does a missing body, and nothing is
    then sent to Meshy. *)
Theorem falsy_image_url_rejected axios_post req :
  (forall b, file req = None -> body req = Some b -> truthy (get b "image_url") = false ->
     post_image_to_3d axios_post req
       = (mkReply 400 (ErrorJson "Provide an image file or image_url"), [])) /\
  (file req = None -> body req = None ->
     post_image_to_3d axios_post req
       = (mkReply 400 (ErrorJson "Provide an image file or image_url"), [])) /\
  (status (fst (post_image_to_3d axios_post req)) = 400 ->
     file req = None /\
     forall b, body req = Some b -> truthy (get b "image_url") = false).
Proof.
  split; [|split].
  - intros b Hf Hb Ht. unfold post_image_to_3d, image_to_3d, image_source.
    rewrite Hf, Hb, Ht. reflexivity.
  - intros Hf Hb. unfold post_image_to_3d, image_to_3d, image_source.
    rewrite Hf, Hb. reflexivity.
  - intros H. apply conduct_400 in H. destruct H as [e H].
    unfold image_to_3d, image_source in H.
    destruct (file req) as [f|].
    + destruct (body req) as [b|]; [|discriminate].
      destruct (copy_fields b _); discriminate.
    + split; [reflexivity|]. intros b Hb. rewrite Hb in H.
      destruct (truthy (get b "image_url")); [|reflexivity].
      destruct (copy_fields b _); discriminate.
Qed.

Lemma falsy_image_url_rejected_witness :
  post_image_to_3d (fun _ _ => Created "{}")
    (mkRequest None (Some ({[ "image_url" := VStr EmptyString ]})))
  = (mkReply 400 (ErrorJson "Provide an image file or image_url"), []).
Proof.
  apply (proj1 (falsy_image_url_rejected (fun _ _ => Created "{}")
                  (mkRequest None (Some ({[ "image_url" := VStr EmptyString ]}))))
           {[ "image_url" := VStr EmptyString ]}); [reflexivity|reflexivity|].
  vm_compute. reflexivity.
Defined.

(** X22.  With an uploaded file and no [image_url] in the body, the payload's
    [image_url] is the data URI of the file, with the file's MIME type or
    [image/png] when it has none.  A payload is posted unless [Number] throws
    on [target_polycount]; the request is then answered 500 and nothing is
    posted. *)
Theorem upload_becomes_data_uri axios_post req f b :
  file req = Some f -> body req = Some b -> b !! "image_url" = None ->
  (unconvertible (get b "target_polycount") = false ->
     exists payload,
       image_to_3d req = Post meshy_url payload /\
       payload !! "image_url" =
         Some (VStr ("data:" +:+ (match mimetype f with
                                  | EmptyString => "image/png"
                                  | m => m
                                  end) +:+ ";base64," +:+ base64 f))) /\
  (unconvertible (get b "target_polycount") = true ->
     post_image_to_3d axios_post req = (mkReply 500 (ErrorJson primitive_error), [])).
Proof.
  intros Hf Hb Hn.
  assert (Hs : image_source req = Some (VStr (data_uri "image/png" f)))
    by (unfold image_source; rewrite Hf; reflexivity).
  destruct (image_to_3d_outcome req b _ Hb Hs) as [Hok Hthrow]. split.
  - intros Hc. destruct (Hok Hc) as [payload Hp]. exists payload. split; [exact Hp|].
    destruct (posted_payload req b payload Hb Hp) as (url & Hs' & _ & _ & Hi & _).
    rewrite (Hi Hn). rewrite Hs in Hs'. injection Hs' as <-.
    unfold data_uri. destruct (mimetype f); reflexivity.
  - intros Hu. unfold post_image_to_3d. rewrite (Hthrow Hu). reflexivity.
Qed.

Lemma upload_becomes_data_uri_witness :
  exists payload,
    image_to_3d (mkRequest (Some (mkUpload EmptyString "AAAA")) (Some ∅))
      = Post meshy_url payload /\
    payload !! "image_url" = Some (VStr "data:image/png;base64,AAAA").
Proof.
  destruct (upload_becomes_data_uri (fun _ _ => Created "{}")
              (mkRequest (Some (mkUpload EmptyString "AAAA")) (Some ∅))
              (mkUpload EmptyString "AAAA") ∅ eq_refl eq_refl (lookup_empty _)) as [H _].
  apply H. vm_compute. reflexivity.
Defined.

(** X23.  [POST /fashn/tryon] is answered 400 exactly when the person image
    or the garment image is missing, and nothing is then sent to FASHN. *)
Theorem tryon_needs_both_images axios_post req :
  (person req = None \/ garment req = None ->
     post_fashn_tryon axios_post req
       = (mkReply 400 (ErrorJson "Please upload both person and garment images."), [])) /\
  (status (fst (post_fashn_tryon axios_post req)) = 400 ->
     person req = None \/ garment req = None).
Proof.
  split.
  - unfold post_fashn_tryon, fashn_tryon.
    intros [H|H]; rewrite H; [reflexivity|]. destruct (person req); reflexivity.
  - intros H. apply conduct_400 in H. destruct H as [e H]. unfold fashn_tryon in H.
    destruct (person req) as [pf|]; [|left; reflexivity].
    destruct (garment req) as [gf|]; [|right; reflexivity].
    destruct (tryon_fields _); discriminate.
Qed.

Lemma tryon_needs_both_images_witness :
  post_fashn_tryon (fun _ _ => Created "{}")
    (mkTryon (Some (mkUpload "image/jpeg" "AAAA")) None ∅)
  = (mkReply 400 (ErrorJson "Please upload both person and garment images."), []).
Proof.
  apply (proj1 (tryon_needs_both_images (fun _ _ => Created "{}")
                  (mkTryon (Some (mkUpload "image/jpeg" "AAAA")) None ∅))).
  right. reflexivity.
Defined.

(** X24.  The five text parameters of [POST /fashn/tryon] are sent as the body
    has them when they are truthy and as their defaults otherwise, so none of
    them is ever sent empty. *)
Theorem tryon_text_defaults req payload k dflt :
  fashn_tryon req = Post fashn_url payload -> (k, dflt) ∈ text_defaults ->
  top payload !! k = Some (or_else (get (tryon_body req) k) (VStr dflt)) /\
  (get (tryon_body req) k = VUndefined \/ get (tryon_body req) k = VStr EmptyString ->
     top payload !! k = Some (VStr dflt)) /\
  truthy (or_else (get (tryon_body req) k) (VStr dflt)) = true.
Proof.
  intros Hp Hk.
  destruct (fashn_tryon_posts req payload Hp) as (seed & samples & _ & _ & ->).
  assert (Ht : truthy (or_else (get (tryon_body req) k) (VStr dflt)) = true).
  { unfold or_else. destruct (truthy (get (tryon_body req) k)) eqn:E; [exact E|].
    unfold text_defaults in Hk.
    repeat (apply elem_of_cons in Hk; destruct Hk as [[= -> ->]|Hk]; [reflexivity|]).
    inversion Hk. }
  assert (Hl : tryon_object (tryon_body req) (default (Fin 42) seed) samples !! k
               = Some (or_else (get (tryon_body req) k) (VStr dflt))).
  { unfold text_defaults in Hk.
    repeat (apply elem_of_cons in Hk; destruct Hk as [[= -> ->]|Hk];
            [unfold tryon_object; repeat (rewrite lookup_insert_ne by discriminate);
             apply lookup_insert_eq|]).
    inversion Hk. }
  split; [exact Hl|]. split; [|exact Ht].
  intros [E|E]; rewrite Hl, E; reflexivity.
Qed.

Lemma tryon_text_defaults_witness :
  exists payload,
    fashn_tryon (mkTryon (Some (mkUpload "image/jpeg" "AAAA"))
                         (Some (mkUpload "image/png" "BBBB"))
                         {[ "mode" := VStr EmptyString ]})
      = Post fashn_url payload /\
    top payload !! "mode" = Some (VStr "balanced").
Proof.
  set (req := mkTryon _ _ _).
  assert (Hp : exists payload, fashn_tryon req = Post fashn_url payload)
    by (eexists; vm_compute; reflexivity).
  destruct Hp as [payload Hp]. exists payload. split; [exact Hp|].
  destruct (tryon_text_defaults req payload "mode" "balanced" Hp) as (_ & H & _).
  - unfold text_defaults. do 3 apply list_elem_of_further. apply list_elem_of_here.
  - apply H. right. vm_compute. reflexivity.
Defined.

(** X25.  Whatever the body holds, the top level of the payload sent to FASHN
    has exactly ten properties: [model_name] and the nine parameters. *)
Theorem tryon_payload_shape req payload :
  fashn_tryon req = Post fashn_url payload ->
  dom (top payload) = list_to_set ("model_name" :: tryon_params) /\
  top payload !! "model_name" = Some (VStr "tryon-v1.6").
Proof.
  intros Hp.
  destruct (fashn_tryon_posts req payload Hp) as (seed & samples & _ & _ & ->).
  split; [|reflexivity].
  unfold tryon_object, tryon_params. rewrite !dom_insert_L, dom_empty_L.
  cbn [list_to_set foldr]. set_solver.
Qed.

Lemma tryon_payload_shape_witness :
  exists payload,
    fashn_tryon (mkTryon (Some (mkUpload "image/jpeg" "AAAA"))
                         (Some (mkUpload "image/png" "BBBB"))
                         {[ "restore_clothes" := VStr "true" ]})
      = Post fashn_url payload /\
    dom (top payload) = list_to_set ("model_name" :: tryon_params).
Proof.
  set (req := mkTryon _ _ _).
  assert (Hp : exists payload, fashn_tryon req = Post fashn_url payload)
    by (eexists; vm_compute; reflexivity).
  destruct Hp as [payload Hp]. exists payload. split; [exact Hp|].
  exact (proj1 (tryon_payload_shape req payload Hp)).
Defined.

(** X26.  [seed] is 42 only when the body does not name it; a value that is
    supplied is converted with [Number], so the empty text gives 0, a text
    that is no number gives [NaN], an integer beyond 2^53 is rounded to
    binary64, and a literal beyond the largest binary64 value gives
    [Infinity]. *)
Theorem seed_default req payload :
  fashn_tryon req = Post fashn_url payload ->
  (get (tryon_body req) "seed" = VUndefined -> top payload !! "seed" = Some (VNum (Fin 42))) /\
  (forall v, tryon_body req !! "seed" = Some v -> v <> VUndefined ->
     exists x, Number v = Normal x /\ top payload !! "seed" = Some (VNum x)) /\
  (forall s, tryon_body req !! "seed" = Some (VStr s) ->
     top payload !! "seed" = Some (VNum (StringToNumber s))) /\
  (tryon_body req !! "seed" = Some (VStr EmptyString) ->
     top payload !! "seed" = Some (VNum (Fin 0))) /\
  (tryon_body req !! "seed" = Some (VStr "9007199254740993") ->
     top payload !! "seed" = Some (VNum (Fin 9007199254740992))) /\
  (tryon_body req !! "seed" = Some (VStr "1e400") ->
     top payload !! "seed" = Some (VNum PosInf)).
Proof.
  intros Hp.
  destruct (fashn_tryon_posts req payload Hp) as (seed & samples & Hseed & _ & ->).
  rewrite tryon_object_seed.
  assert (Hany : forall v, tryon_body req !! "seed" = Some v -> v <> VUndefined ->
            exists x, Number v = Normal x /\
                      Some (VNum (default (Fin 42) seed)) = Some (VNum x)).
  { intros v Hv Hne. rewrite (get_Some _ _ _ Hv) in Hseed.
    destruct (num_spec _ _ Hseed) as [[Hu _]|(_ & n & Hn & ->)]; [contradiction|].
    exists n. split; [exact Hn|reflexivity]. }
  assert (Hstr : forall s, tryon_body req !! "seed" = Some (VStr s) ->
            Some (VNum (default (Fin 42) seed)) = Some (VNum (StringToNumber s))).
  { intros s Hs. destruct (Hany _ Hs) as (x & Hx & ->); [discriminate|].
    injection Hx as <-. reflexivity. }
  split.
  { intros Hu. rewrite Hu in Hseed. injection Hseed as <-. reflexivity. }
  split; [exact Hany|]. split; [exact Hstr|].
  repeat split; intros Hs; rewrite (Hstr _ Hs); vm_compute; reflexivity.
Qed.

Lemma seed_default_witness :
  exists payload,
    fashn_tryon (mkTryon (Some (mkUpload "image/jpeg" "AAAA"))
                         (Some (mkUpload "image/png" "BBBB"))
                         {[ "seed" := VStr "9007199254740993" ]})
      = Post fashn_url payload /\
    top payload !! "seed" = Some (VNum (Fin 9007199254740992)).
Proof.
  set (req := mkTryon _ _ _).
  assert (Hp : exists payload, fashn_tryon req = Post fashn_url payload)
    by (eexists; vm_compute; reflexivity).
  destruct Hp as [payload Hp]. exists payload. split; [exact Hp|].
  destruct (seed_default req payload Hp) as (_ & _ & _ & _ & H & _).
  apply H. vm_compute. reflexivity.
Defined.

End SubmitMore.

(** ** Start-up and [GET /health] *)

Module StartupFacts.
Import Startup.

Lemma lookup_env_spec env k v :
  lookup_env env k = Some v <-> env !! k = Some v /\ v <> EmptyString.
Proof.
  unfold lookup_env. destruct (env !! k) as [[|c s]|].
  - split; [discriminate|intros [[= <-] H]; congruence].
  - split; [intros [= <-]; split; [reflexivity|discriminate]|intros [[= <-] _]; reflexivity].
  - split; [discriminate|intros [H _]; discriminate].
Qed.

(** X27.  The server listens exactly when both API keys are set to non-empty
    texts, and the configuration then holds these keys, so [GET /health] can
    only report [api_key_configured: true].  Otherwise the process exits with
    code 1, naming the Meshy key first. *)
Theorem startup_needs_both_keys env :
  (forall c, startup env = Listening c ->
     env !! "MESHY_API_KEY" = Some (MESHY_API_KEY c) /\ MESHY_API_KEY c <> EmptyString /\
     env !! "FASHN_API_KEY" = Some (FASHN_API_KEY c) /\ FASHN_API_KEY c <> EmptyString /\
     health c = ("ok", true)) /\
  (forall mk fk, env !! "MESHY_API_KEY" = Some mk -> mk <> EmptyString ->
     env !! "FASHN_API_KEY" = Some fk -> fk <> EmptyString ->
     exists c, startup env = Listening c) /\
  (lookup_env env "MESHY_API_KEY" = None ->
     startup env = Exit 1 "MESHY_API_KEY not set in .env") /\
  (lookup_env env "MESHY_API_KEY" <> None -> lookup_env env "FASHN_API_KEY" = None ->
     startup env = Exit 1 "FASHN_API_KEY not set in .env").
Proof.
  unfold startup. split; [|split; [|split]].
  - intros c. destruct (lookup_env env "MESHY_API_KEY") as [mk|] eqn:Hm; [|discriminate].
    destruct (lookup_env env "FASHN_API_KEY") as [fk|] eqn:Hf; [|discriminate].
    intros [= <-]. apply lookup_env_spec in Hm as [Hm Hm'].
    apply lookup_env_spec in Hf as [Hf Hf'].
    cbn [MESHY_API_KEY FASHN_API_KEY]. repeat split; auto.
    unfold health. cbn [MESHY_API_KEY]. destruct mk; [contradiction|reflexivity].
  - intros mk fk H1 H2 H3 H4.
    rewrite (proj2 (lookup_env_spec _ _ _) (conj H1 H2)).
    rewrite (proj2 (lookup_env_spec _ _ _) (conj H3 H4)). eexists. reflexivity.
  - intros ->. reflexivity.
  - intros Hm ->. destruct (lookup_env env "MESHY_API_KEY"); [reflexivity|contradiction].
Qed.

End StartupFacts.
